(** * QMigrate.signal.onset.staltaonset: STA/LTA onset functions

    A shallow embedding of [staltaonset.py] and the properties of it that
    the specification states.

    Numbers.  A Python [float] is modelled as a real number: arithmetic is
    exact, rounding and overflow are not modelled.  The operations of the
    module that can leave the finite numbers, the element-wise division
    [sta / lta], [np.log] and [np.sqrt], return a [float], that is an
    [option R] whose [None] stands for a non-finite value (an infinity or a
    NaN).  A binary64 value can also overflow where the real one does not;
    the properties of the values of an array are therefore stated of its
    finite values, or of values that are exactly 0.  A Python [int] is a
    [Z].

    Arrays.  A one-dimensional numpy array is a [list]; a two-dimensional
    array of shape (n_channels, n_samples) is a list of rows, so that an
    array without rows carries no number of samples.  The arrays are
    arrays of floats: an array of an integer dtype, into which numpy
    refuses to write the clipped ratio, is outside the model.  Slices
    follow numpy: negative indices count from the end, indices out of
    range are clamped, and an assignment whose shapes do not agree raises.

    The base class.  The constructor of [qonset.Onset] is not among the
    sources; what it assigns is a parameter, see [OnsetBase].

    Exceptions.  A function that can raise returns a [result]. *)

From Stdlib Require Import Reals Lra Lia ZArith List Bool.
Import ListNotations.

Open Scope R_scope.

(** ** Exceptions *)

Inductive exn : Type :=
| AttributeError      (* an attribute is read before it was assigned *)
| IndexError          (* an index out of range *)
| ValueError          (* numpy: operands could not be broadcast together *)
| ZeroDivisionError   (* Python scalar division by zero *)
| LibraryError        (* raised inside a routine of scipy or obspy *)
| InvalidFilterSpec.  (* the condition of the specification, section 7 *)

Inductive result (A : Type) : Type :=
| Ok (a : A)
| Raise (e : exn).

Arguments Ok {A} a.
Arguments Raise {A} e.

Definition bind {A B : Type} (m : result A) (k : A -> result B) : result B :=
  match m with
  | Ok a => k a
  | Raise e => Raise e
  end.

Notation "x <- m ;; k" := (bind m (fun x => k))
  (at level 61, m at next level, right associativity).

(** The rows of a two-dimensional array are processed in order; the first
    exception ends the loop. *)
Fixpoint for_each {A B : Type} (f : A -> result B) (l : list A)
  : result (list B) :=
  match l with
  | [] => Ok []
  | x :: l' => y <- f x ;; ys <- for_each f l' ;; Ok (y :: ys)
  end.

(** ** Floats that may be non-finite *)

Definition float : Type := option R.

(** [x / y] of numpy on finite operands: a zero divisor gives an infinity
    or a NaN. *)
Definition fdiv (x y : R) : float :=
  if Req_dec_T y 0 then None else Some (x / y).

(** [np.log]: the natural logarithm; minus infinity at 0, NaN below. *)
Definition flog (x : float) : float :=
  match x with
  | Some r => if Rlt_dec 0 r then Some (ln r) else None
  | None => None
  end.

(** [1 + x]. *)
Definition fadd1 (x : float) : float := option_map (fun r => 1 + r) x.

(** [np.clip(x, lo, np.inf)]: a NaN stays a NaN and plus infinity stays; a
    finite value is raised to [lo]. *)
Definition fclip (lo : R) (x : float) : float := option_map (fun r => Rmax r lo) x.

Definition fsq (x : float) : float := option_map (fun r => r * r) x.

Definition fadd (x y : float) : float :=
  match x, y with
  | Some a, Some b => Some (a + b)
  | _, _ => None
  end.

Definition fhalf (x : float) : float := option_map (fun r => r / 2) x.

(** [np.sqrt]: NaN on a negative argument. *)
Definition fsqrt (x : float) : float :=
  match x with
  | Some r => if Rlt_dec r 0 then None else Some (sqrt r)
  | None => None
  end.

(** The decimal logarithm the specification speaks of. *)
Definition log10 (x : R) : R := ln x / ln 10.

(** [np.finfo(0.0).tiny], the smallest positive normal double, 2^-1022. *)
Definition dtiny : R := / (2 ^ 1022).

(** ** Python's conversions to integers *)

(** [int(x)]: truncation towards zero. *)
Definition py_int (x : R) : Z :=
  if Rle_dec 0 x then Int_part x else (- Int_part (- x))%Z.

(** [round(x)] with one argument: the nearest integer, a tie going to the
    even one. *)
Definition py_round (x : R) : Z :=
  let f := Int_part x in
  let d := x - IZR f in
  if Rlt_dec d (1 / 2) then f
  else if Rlt_dec (1 / 2) d then (f + 1)%Z
  else if Z.even f then f else (f + 1)%Z.

(** [int(round(n))] on a window length that is already an integer. *)
Definition int_round (n : Z) : Z := py_round (IZR n).

(** [np.ceil]. *)
Definition np_ceil (x : R) : R := IZR (- Int_part (- x)).

(** ** numpy slices *)

Section Slices.
Context {A : Type}.

(** A slice bound [i] of an array of length [n], as numpy normalises it. *)
Definition norm_index (n : nat) (i : Z) : nat :=
  if (i <? 0)%Z then Z.to_nat (Z.max (i + Z.of_nat n) 0)
  else Nat.min (Z.to_nat i) n.

(** The bounds of [l[i:j]]; [None] is an omitted bound. *)
Definition slice_start (n : nat) (i : option Z) : nat :=
  match i with None => 0%nat | Some i => norm_index n i end.

Definition slice_stop (n : nat) (j : option Z) : nat :=
  match j with None => n | Some j => norm_index n j end.

(** [l[i:j]]. *)
Definition get_slice (l : list A) (i j : option Z) : list A :=
  let a := slice_start (length l) i in
  let b := slice_stop (length l) j in
  firstn (b - a) (skipn a l).

(** [l] with the [len] elements from position [a] on replaced by [v]. *)
Definition splice (l : list A) (a len : nat) (v : list A) : list A :=
  firstn a l ++ v ++ skipn (a + len) l.

(** [l[i:j] = v] for an array [v]: the lengths agree, or [v] has one
    element, which is repeated. *)
Definition set_slice (l : list A) (i j : option Z) (v : list A)
  : result (list A) :=
  let a := slice_start (length l) i in
  let b := slice_stop (length l) j in
  if (length v =? b - a)%nat then Ok (splice l a (b - a) v)
  else
    match v with
    | [x] => Ok (splice l a (b - a) (repeat x (b - a)))
    | _ => Raise ValueError
    end.

(** [l[i:j] = x] for a scalar [x]. *)
Definition fill_slice (l : list A) (i j : option Z) (x : A) : list A :=
  let a := slice_start (length l) i in
  let b := slice_stop (length l) j in
  splice l a (b - a) (repeat x (b - a)).

(** [l[idx] = x] for a boolean mask [idx] of the shape of [l]. *)
Definition mask_assign (l : list A) (idx : list bool) (x : A)
  : result (list A) :=
  if (length idx =? length l)%nat then
    Ok (map (fun p : A * bool => if snd p then x else fst p) (combine l idx))
  else Raise IndexError.
End Slices.

(** An element-wise binary operation on two one-dimensional arrays, with
    numpy's broadcasting of an operand of length one. *)
Definition broadcast {A B C : Type} (f : A -> B -> C) (l : list A) (m : list B)
  : result (list C) :=
  if (length l =? length m)%nat then
    Ok (map (fun p : A * B => f (fst p) (snd p)) (combine l m))
  else
    match l, m return result (list C) with
    | [x], _ => Ok (map (f x) m)
    | _, [y] => Ok (map (fun x => f x y) l)
    | _, _ => Raise ValueError
    end.

(** [np.cumsum]. *)
Fixpoint cumsum_from (acc : R) (l : list R) : list R :=
  match l with
  | [] => []
  | x :: l' => (acc + x) :: cumsum_from (acc + x) l'
  end.

Definition cumsum (l : list R) : list R := cumsum_from 0 l.

(** [np.sum] of a row. *)
Definition np_sum (l : list R) : R := fold_left Rplus l 0.

(** ** [sta_lta_centred] *)

(** The STA array as the source builds it, up to the boundary zeroing. *)
Definition sta_windows (a : list R) (nsta nlta : Z) : result (list R) :=
  let sta := cumsum (map (fun x => x ^ 2) a) in
  d <- broadcast Rminus (get_slice sta (Some nsta) None)
                        (get_slice sta None (Some (- nsta)%Z)) ;;
  sta <- set_slice sta (Some nsta) None d ;;
  sta <- set_slice sta (Some nsta) (Some (- nsta)%Z)
                   (get_slice sta (Some (nsta * 2)%Z) None) ;;
  let sta := map (fun x => x / IZR nsta) sta in
  let sta := fill_slice sta None (Some (nlta - 1)%Z) 0 in
  Ok (fill_slice sta (Some (- nsta)%Z) None 0).

(** The LTA array before the guard against a division by zero. *)
Definition lta_windows (a : list R) (nlta : Z) : result (list R) :=
  let lta := cumsum (map (fun x => x ^ 2) a) in
  d <- broadcast Rminus (get_slice lta (Some nlta) None)
                        (get_slice lta None (Some (- nlta)%Z)) ;;
  lta <- set_slice lta (Some nlta) None d ;;
  Ok (map (fun x => x / IZR nlta) lta).

Definition sta_lta_centred (a : list R) (nsta nlta : Z) : result (list float) :=
  let nsta := int_round nsta in
  let nlta := int_round nlta in
  (* the statements on [sta] and on [lta] touch disjoint arrays: the
     subtraction of line 51 of the source is the first that can raise *)
  sta0 <- sta_windows a nsta nlta ;;
  lta0 <- lta_windows a nlta ;;
  let idx := map (fun l => if Rlt_dec l dtiny then true else false) lta0 in
  lta <- mask_assign lta0 idx dtiny ;;
  sta <- mask_assign sta0 idx 0 ;;
  broadcast fdiv sta lta.

(** ** The routines of scipy and obspy

    [butter], [lfilter], [cosine_taper] and [classic_sta_lta] are imported
    by the module; the development is parametric in them.  A routine
    returns [None] when it raises. *)

Class SignalLib : Type := {
  (** [scipy.signal.butter(order, [w1, w2], btype="band")]: the
      coefficients [(b, a)]. *)
  butter : Z -> R -> R -> option (list R * list R);
  (** [scipy.signal.lfilter(b, a, x)]. *)
  lfilter : list R -> list R -> list R -> option (list R);
  (** [obspy.signal.invsim.cosine_taper(npts, p)]. *)
  cosine_taper : nat -> R -> list R;
  (** [obspy.signal.trigger.classic_sta_lta(a, nsta, nlta)]. *)
  classic_sta_lta : list R -> Z -> Z -> option (list float)
}.

(** The outcome of a call of one of these routines. *)
Definition library_call {A : Type} (r : option A) : result A :=
  match r with
  | Some a => Ok a
  | None => Raise LibraryError
  end.

(** [arr[i, :] = v] on a row of [n] samples. *)
Definition assign_row {A : Type} (n : nat) (v : list A) : result (list A) :=
  if (length v =? n)%nat then Ok v
  else
    match v with
    | [x] => Ok (repeat x n)
    | _ => Raise ValueError
    end.

(** ** The base class

    [ClassicSTALTAOnset.__init__] first calls the constructor of its base
    class [qonset.Onset], which is not among the sources.  What that
    constructor leaves in [_pre_pad] and in [_post_pad], a value or
    nothing, is a parameter of the development. *)

Class OnsetBase : Type := {
  Onset_init : option R * option R
}.

Section Onset.
Context {L : SignalLib} {B : OnsetBase}.

(** ** [onset] *)

(** The body of the loop of [onset] on the row of one channel. *)
Definition onset_row (row : list R) (stw ltw : Z) (centred : bool)
  : result (list float) :=
  if Req_dec_T (np_sum row) 0 then Ok (repeat (Some 0) (length row))
  else
    ratio <- (if centred then sta_lta_centred row stw ltw
              else library_call (classic_sta_lta row stw ltw)) ;;
    ratio <- assign_row (length row) ratio ;;
    let clipped := map (fun x => fclip (8 / 10) (fadd1 x)) ratio in
    Ok (map flog clipped).

Definition onset (sig : list (list R)) (stw ltw : Z) (centred : bool)
  : result (list (list float)) :=
  let stw := int_round stw in
  let ltw := int_round ltw in
  for_each (fun row => onset_row row stw ltw centred) sig.

(** ** [filter] *)

(** The body of the loop of [filter] on the row of one channel. *)
Definition filter_row (b1 a1 : list R) (row : list R) : result (list R) :=
  let n := length row in
  x0 <- match row with
        | [] => Raise IndexError
        | x :: _ => Ok x
        end ;;
  let row := map (fun x => x - x0) row in
  let tap := cosine_taper (length row) (1 / 10) in
  tapered <- broadcast Rmult row tap ;;
  row <- assign_row n tapered ;;
  back <- library_call (lfilter b1 a1 (rev row)) ;;
  row <- assign_row n (rev back) ;;
  forth <- library_call (lfilter b1 a1 row) ;;
  assign_row n forth.

Definition filter (sig : list (list R)) (sampling_rate : Z) (lc hc : R)
  (order : Z) : result (list (list R)) :=
  if (sampling_rate =? 0)%Z then Raise ZeroDivisionError
  else
    coeffs <- library_call (butter order (2 * lc / IZR sampling_rate)
                                         (2 * hc / IZR sampling_rate)) ;;
    let '(b1, a1) := coeffs in
    for_each (filter_row b1 a1) sig.

(** ** The class [ClassicSTALTAOnset] *)

(** The attributes of an instance.  Those that [__init__] assigns always
    have a value; the others are [None] until they are assigned. *)
Record ClassicSTALTAOnset : Type := {
  sampling_rate : Z;
  p_bp_filter : R * R * Z;
  s_bp_filter : R * R * Z;
  p_onset_win : R * R;
  s_onset_win : R * R;
  onset_centred : bool;
  _pre_pad : option R;
  _post_pad : option R;
  sigz : option (list (list R));
  sige : option (list (list R));
  sign : option (list (list R));
  filt_sigz : option (list (list R));
  filt_sige : option (list (list R));
  filt_sign : option (list (list R))
}.

(** [__init__]: the pads are as the base constructor left them, the
    configuration is assigned, and no trace is. *)
Definition init (rate : Z) : ClassicSTALTAOnset :=
  let base := Onset_init in
  {| sampling_rate := rate;
     p_bp_filter := (2, 16, 2%Z);
     s_bp_filter := (2, 12, 2%Z);
     p_onset_win := (2 / 10, 1);
     s_onset_win := (2 / 10, 1);
     onset_centred := false;
     _pre_pad := fst base;
     _post_pad := snd base;
     sigz := None; sige := None; sign := None;
     filt_sigz := None; filt_sige := None; filt_sign := None |}.

Definition set_onset_centred (self : ClassicSTALTAOnset) (c : bool) :=
  {| sampling_rate := sampling_rate self;
     p_bp_filter := p_bp_filter self;
     s_bp_filter := s_bp_filter self;
     p_onset_win := p_onset_win self;
     s_onset_win := s_onset_win self;
     onset_centred := c;
     _pre_pad := _pre_pad self;
     _post_pad := _post_pad self;
     sigz := sigz self; sige := sige self; sign := sign self;
     filt_sigz := filt_sigz self;
     filt_sige := filt_sige self;
     filt_sign := filt_sign self |}.

(** The caller assigns the traces of the three components before it
    calls [p_onset] or [s_onset]. *)
Definition set_signals (self : ClassicSTALTAOnset)
  (z e n : option (list (list R))) :=
  {| sampling_rate := sampling_rate self;
     p_bp_filter := p_bp_filter self;
     s_bp_filter := s_bp_filter self;
     p_onset_win := p_onset_win self;
     s_onset_win := s_onset_win self;
     onset_centred := onset_centred self;
     _pre_pad := _pre_pad self;
     _post_pad := _post_pad self;
     sigz := z; sige := e; sign := n;
     filt_sigz := filt_sigz self;
     filt_sige := filt_sige self;
     filt_sign := filt_sign self |}.

(** The caller may assign the filters, the windows and the mode before
    a run. *)
Definition configure (self : ClassicSTALTAOnset) (p_bp s_bp : R * R * Z)
  (p_win s_win : R * R) (centred : bool) :=
  {| sampling_rate := sampling_rate self;
     p_bp_filter := p_bp;
     s_bp_filter := s_bp;
     p_onset_win := p_win;
     s_onset_win := s_win;
     onset_centred := centred;
     _pre_pad := _pre_pad self;
     _post_pad := _post_pad self;
     sigz := sigz self; sige := sige self; sign := sign self;
     filt_sigz := filt_sigz self;
     filt_sige := filt_sige self;
     filt_sign := filt_sign self |}.

(** [CentredSTALTAOnset.__init__]. *)
Definition centred_init (rate : Z) : ClassicSTALTAOnset :=
  set_onset_centred (init rate) true.

Definition set_filt_sigz (self : ClassicSTALTAOnset) (f : list (list R)) :=
  {| sampling_rate := sampling_rate self;
     p_bp_filter := p_bp_filter self;
     s_bp_filter := s_bp_filter self;
     p_onset_win := p_onset_win self;
     s_onset_win := s_onset_win self;
     onset_centred := onset_centred self;
     _pre_pad := _pre_pad self;
     _post_pad := _post_pad self;
     sigz := sigz self; sige := sige self; sign := sign self;
     filt_sigz := Some f;
     filt_sige := filt_sige self;
     filt_sign := filt_sign self |}.

Definition set_filt_sige (self : ClassicSTALTAOnset) (f : list (list R)) :=
  {| sampling_rate := sampling_rate self;
     p_bp_filter := p_bp_filter self;
     s_bp_filter := s_bp_filter self;
     p_onset_win := p_onset_win self;
     s_onset_win := s_onset_win self;
     onset_centred := onset_centred self;
     _pre_pad := _pre_pad self;
     _post_pad := _post_pad self;
     sigz := sigz self; sige := sige self; sign := sign self;
     filt_sigz := filt_sigz self;
     filt_sige := Some f;
     filt_sign := filt_sign self |}.

Definition set_filt_sign (self : ClassicSTALTAOnset) (f : list (list R)) :=
  {| sampling_rate := sampling_rate self;
     p_bp_filter := p_bp_filter self;
     s_bp_filter := s_bp_filter self;
     p_onset_win := p_onset_win self;
     s_onset_win := s_onset_win self;
     onset_centred := onset_centred self;
     _pre_pad := _pre_pad self;
     _post_pad := _post_pad self;
     sigz := sigz self; sige := sige self; sign := sign self;
     filt_sigz := filt_sigz self;
     filt_sige := filt_sige self;
     filt_sign := Some f |}.

Definition set__pre_pad (self : ClassicSTALTAOnset) (v : R) :=
  {| sampling_rate := sampling_rate self;
     p_bp_filter := p_bp_filter self;
     s_bp_filter := s_bp_filter self;
     p_onset_win := p_onset_win self;
     s_onset_win := s_onset_win self;
     onset_centred := onset_centred self;
     _pre_pad := Some v;
     _post_pad := _post_pad self;
     sigz := sigz self; sige := sige self; sign := sign self;
     filt_sigz := filt_sigz self;
     filt_sige := filt_sige self;
     filt_sign := filt_sign self |}.

Definition set__post_pad (self : ClassicSTALTAOnset) (v : R) :=
  {| sampling_rate := sampling_rate self;
     p_bp_filter := p_bp_filter self;
     s_bp_filter := s_bp_filter self;
     p_onset_win := p_onset_win self;
     s_onset_win := s_onset_win self;
     onset_centred := onset_centred self;
     _pre_pad := _pre_pad self;
     _post_pad := Some v;
     sigz := sigz self; sige := sige self; sign := sign self;
     filt_sigz := filt_sigz self;
     filt_sige := filt_sige self;
     filt_sign := filt_sign self |}.

(** Reading an attribute of the instance. *)
Definition attribute {A : Type} (a : option A) : result A :=
  match a with
  | Some v => Ok v
  | None => Raise AttributeError
  end.

(** The number of samples of a window of [seconds] seconds, as [p_onset]
    and [s_onset] compute it: [int(seconds * self.sampling_rate) + 1]. *)
Definition window_samples (seconds : R) (rate : Z) : Z :=
  (py_int (seconds * IZR rate) + 1)%Z.

(** A method returns its result, or the exception it raised, and the
    instance as it leaves it. *)
Definition p_onset (self : ClassicSTALTAOnset)
  : result (list (list float)) * ClassicSTALTAOnset :=
  let '(stw, ltw) := p_onset_win self in
  let stw := window_samples stw (sampling_rate self) in
  let ltw := window_samples ltw (sampling_rate self) in
  let '(lc, hc, ord_) := p_bp_filter self in
  match sigz self with
  | None => (Raise AttributeError, self)
  | Some z =>
    match filter z (sampling_rate self) lc hc ord_ with
    | Raise e => (Raise e, self)
    | Ok fz =>
      let self := set_filt_sigz self fz in
      (onset fz stw ltw (onset_centred self), self)
    end
  end.

(** [np.sqrt((e ** 2 + n ** 2) / 2.)] on two two-dimensional arrays. *)
Definition rms_combine (e n : list (list float))
  : result (list (list float)) :=
  rows <- broadcast (broadcast fadd) (map (map fsq) e) (map (map fsq) n) ;;
  sum <- for_each (fun r => r) rows ;;
  Ok (map (map (fun x => fsqrt (fhalf x))) sum).

Definition s_onset (self : ClassicSTALTAOnset)
  : result (list (list float)) * ClassicSTALTAOnset :=
  let '(stw, ltw) := s_onset_win self in
  let stw := window_samples stw (sampling_rate self) in
  let ltw := window_samples ltw (sampling_rate self) in
  let '(lc, hc, ord_) := s_bp_filter self in
  match sige self with
  | None => (Raise AttributeError, self)
  | Some e =>
    match filter e (sampling_rate self) lc hc ord_ with
    | Raise ex => (Raise ex, self)
    | Ok fe =>
      let self := set_filt_sige self fe in
      match sign self with
      | None => (Raise AttributeError, self)
      | Some n =>
        match filter n (sampling_rate self) lc hc ord_ with
        | Raise ex => (Raise ex, self)
        | Ok fn =>
          let self := set_filt_sign self fn in
          (s_e_onset <- onset fe stw ltw (onset_centred self) ;;
           s_n_onset <- onset fn stw ltw (onset_centred self) ;;
           rms_combine s_e_onset s_n_onset, self)
        end
      end
    end
  end.

(** The filtered trace and the onset function of one component, as
    [p_onset] computes them for Z and [s_onset] for E and for N. *)
Definition onset_of_component (self : ClassicSTALTAOnset) (bp : R * R * Z)
  (win : R * R) (raw : list (list R))
  : result (list (list R) * list (list float)) :=
  fsig <- filter raw (sampling_rate self) (fst (fst bp)) (snd (fst bp))
                 (snd bp) ;;
  o <- onset fsig (window_samples (fst win) (sampling_rate self))
             (window_samples (snd win) (sampling_rate self))
             (onset_centred self) ;;
  Ok (fsig, o).

(** The property [pre_pad]: its getter and its setter. *)
Definition pre_pad (self : ClassicSTALTAOnset) : R :=
  Rmax (snd (p_onset_win self)) (snd (s_onset_win self))
  + 3 * Rmax (fst (p_onset_win self)) (fst (s_onset_win self)).

Definition pre_pad_setter (self : ClassicSTALTAOnset) (value : R) :=
  set__pre_pad self value.

(** The property [post_pad]: its getter and its setter. *)
Definition post_pad (self : ClassicSTALTAOnset) : result R :=
  match _post_pad self with
  | Some v => Ok v
  | None => Raise AttributeError
  end.

Definition post_pad_setter (self : ClassicSTALTAOnset) (ttmax : R) :=
  let lta_max := Rmax (snd (p_onset_win self)) (snd (s_onset_win self)) in
  set__post_pad self (np_ceil (ttmax + 2 * lta_max)).
End Onset.

(** ** An instance of the routines

    Concrete runs need concrete routines.  [lfilter] is the difference
    equation a[0] y[n] = b[0] x[n] + ... + b[M] x[n-M] - a[1] y[n-1] - ...
    - a[N] y[n-N] from rest; [classic_sta_lta] is the cumulative-sum
    algorithm with trailing windows; the taper leaves the samples as they
    are, which is what a taper of 10 percent does on a trace of fewer than
    ten samples; the design routine accepts critical frequencies strictly
    between 0 and 1 and returns the coefficients of y[n] = x[n] - x[n-2]
    in place of those of a Butterworth filter. *)

Fixpoint dot (c x : list R) : R :=
  match c, x with
  | c0 :: c', x0 :: x' => c0 * x0 + dot c' x'
  | _, _ => 0
  end.

Fixpoint difference_equation (b a : list R) (a0 : R) (xpast ypast x : list R)
  : list R :=
  match x with
  | [] => []
  | x0 :: x' =>
    let y := (dot b (x0 :: xpast) - dot a ypast) / a0 in
    y :: difference_equation b a a0 (x0 :: xpast) (y :: ypast) x'
  end.

Definition direct_lfilter (b a x : list R) : option (list R) :=
  match a with
  | [] => None
  | a0 :: a' =>
    if Req_dec_T a0 0 then None
    else Some (difference_equation b a' a0 [] [] x)
  end.

Definition two_tap_design (order : Z) (w1 w2 : R) : option (list R * list R) :=
  if Rlt_dec 0 w1 then
    if Rlt_dec w1 1 then
      if Rlt_dec 0 w2 then
        if Rlt_dec w2 1 then Some ([1; 0; -1], [1]) else None
      else None
    else None
  else None.

Definition unit_taper (npts : nat) (p : R) : list R := repeat 1 npts.

Definition trailing_sta_lta (a : list R) (nsta nlta : Z) : option (list float) :=
  let sta := cumsum (map (fun x => x ^ 2) a) in
  let lta := sta in
  let windows (w : list R) (k : Z) :=
    d <- broadcast Rminus (get_slice w (Some k) None)
                          (get_slice w None (Some (- k)%Z)) ;;
    w <- set_slice w (Some k) None d ;;
    Ok (map (fun x => x / IZR k) w) in
  match (sta <- windows sta nsta ;;
         lta <- windows lta nlta ;;
         let sta := fill_slice sta None (Some (nlta - 1)%Z) 0 in
         let idx := map (fun l => if Rlt_dec l dtiny then true else false) lta in
         lta <- mask_assign lta idx dtiny ;;
         broadcast fdiv sta lta) with
  | Ok r => Some r
  | Raise _ => None
  end.

Definition reference_lib : SignalLib := {|
  butter := two_tap_design;
  lfilter := direct_lfilter;
  cosine_taper := unit_taper;
  classic_sta_lta := trailing_sta_lta
|}.

(** A base constructor that assigns nothing, for the concrete runs: none
    of them reads a pad that was not assigned before. *)
Definition no_base_attributes : OnsetBase := {|
  Onset_init := (None, None)
|}.

(** A centred instance at 10 Hz with windows of 0.05 s and 0.1 s, that
    is 1 and 2 samples, a pass band of 1 to 2 Hz, and one vertical trace
    0, 1, -1, 0, whose samples sum to zero. *)
Definition short_window_instance : ClassicSTALTAOnset :=
  configure
    (set_signals (centred_init (B := no_base_attributes) 10)
                 (Some [[0; 1; -1; 0]]) None None)
    (1, 2, 1%Z) (1, 2, 1%Z) (5 / 100, 1 / 10) (5 / 100, 1 / 10) true.

(** The default instance at 50 Hz with three silent samples on each of
    the three components. *)
Definition silent_instance : ClassicSTALTAOnset :=
  set_signals (init (B := no_base_attributes) 50) (Some [[0; 0; 0]]) (Some [[0; 0; 0]])
              (Some [[0; 0; 0]]).

(** ** The quantities the specification names *)

(** A filter specification the specification calls invalid: the high
    corner at or above the Nyquist frequency, the low corner not below the
    high one, a corner that is not positive, or an order that is not
    positive. *)
Definition invalid_filter_spec (rate : Z) (lc hc : R) (order : Z) : Prop :=
  IZR rate / 2 <= hc \/ hc <= lc \/ lc <= 0 \/ hc <= 0 \/ (order <= 0)%Z.


(** [csum[k]], the sum of the squares of the samples 0 to [k]; the sum is
    empty, hence 0, before the first sample. *)
Definition csum (a : list R) (k : Z) : R :=
  if (k <? 0)%Z then 0
  else nth (Z.to_nat k) (cumsum (map (fun x => x ^ 2) a)) 0.

(** The short-term average of the [nsta] samples after sample [i] and the
    long-term average of the [nlta] samples up to sample [i]. *)
Definition sta_after (a : list R) (nsta i : Z) : R :=
  (csum a (i + nsta) - csum a i) / IZR nsta.

Definition lta_upto (a : list R) (nlta i : Z) : R :=
  (csum a i - csum a (i - nlta)) / IZR nlta.

(** The ratio of the centred mode at a sample with short-term average
    [s] and long-term average [l], the guard of the source applied. *)
Definition guarded_ratio (s l : R) : float :=
  if Rlt_dec l dtiny then fdiv 0 dtiny else fdiv s l.

(** The root mean square of two values. *)
Definition rms (x y : float) : float := fsqrt (fhalf (fadd (fsq x) (fsq y))).

(** Two arrays of the same shape: as many rows, and row by row as many
    samples. *)
Definition same_shape {A B : Type} (e : list (list A)) (n : list (list B))
  : Prop :=
  Forall2 (fun r r' => length r = length r') e n.

(** The onset value of a sample whose STA/LTA ratio is [ratio]. *)
Definition onset_value (ratio : float) : float :=
  flog (fclip (8 / 10) (fadd1 ratio)).

(** * Properties *)

(** ** Numbers *)

Lemma Int_part_IZR (z : Z) : Int_part (IZR z) = z.
Proof. symmetry. apply Int_part_spec. lra. Qed.

Lemma int_round_id (n : Z) : int_round n = n.
Proof.
  unfold int_round, py_round. rewrite Int_part_IZR.
  destruct (Rlt_dec (IZR n - IZR n) (1 / 2)) as [_ | H]; [reflexivity | lra].
Qed.

Lemma dtiny_pos : 0 < dtiny.
Proof. unfold dtiny. apply Rinv_0_lt_compat, pow_lt. lra. Qed.

Lemma py_int_bounds (x : R) (z : Z) :
  0 <= x -> IZR z <= x < IZR z + 1 -> py_int x = z.
Proof.
  intros Hx Hz. unfold py_int.
  destruct (Rle_dec 0 x) as [_ | H]; [| lra].
  symmetry. apply Int_part_spec. lra.
Qed.

Lemma np_ceil_IZR (z : Z) : np_ceil (IZR z) = IZR z.
Proof.
  unfold np_ceil. rewrite <- opp_IZR, Int_part_IZR. f_equal. lia.
Qed.

Section SliceFacts.
Context {A : Type}.
Implicit Types (l v : list A) (d x : A).

Lemma splice_length l a len v :
  length v = len -> (a + len <= length l)%nat ->
  length (splice l a len v) = length l.
Proof.
  intros Hv Hb. unfold splice.
  rewrite !length_app, length_firstn, length_skipn. lia.
Qed.

Lemma splice_nth l a len v d k :
  length v = len -> (a + len <= length l)%nat ->
  nth k (splice l a len v) d =
    if (k <? a)%nat then nth k l d
    else if (k <? a + len)%nat then nth (k - a) v d
    else nth k l d.
Proof.
  intros Hv Hb. unfold splice.
  destruct (Nat.ltb_spec k a) as [Hk | Hk].
  - rewrite app_nth1 by (rewrite length_firstn; lia).
    rewrite nth_firstn. destruct (Nat.ltb_spec k a); [reflexivity | lia].
  - rewrite app_nth2 by (rewrite length_firstn; lia).
    rewrite length_firstn, Nat.min_l by lia.
    destruct (Nat.ltb_spec k (a + len)) as [Hk' | Hk'].
    + rewrite app_nth1 by lia. reflexivity.
    + rewrite app_nth2 by lia. rewrite nth_skipn. f_equal. lia.
Qed.
End SliceFacts.

(** ** Windows of the cumulative sum *)

(** Settles the tests [a <? b] of a goal by linear arithmetic. *)
Ltac decide_ltb :=
  repeat match goal with
         | |- context [(?a <? ?b)%nat] =>
           destruct (Nat.ltb_spec a b); try lia
         end.

Lemma norm_index_nonneg (n : nat) (k : Z) :
  (0 <= k)%Z -> norm_index n k = Nat.min (Z.to_nat k) n.
Proof.
  intros Hk. unfold norm_index.
  destruct (Z.ltb_spec k 0); [lia | reflexivity].
Qed.

Lemma norm_index_from_end (n : nat) (k : Z) :
  (0 < k)%Z -> norm_index n (- k) = (n - Z.to_nat k)%nat.
Proof.
  intros Hk. unfold norm_index.
  destruct (Z.ltb_spec (- k) 0); lia.
Qed.

Lemma nth_zip {A B C : Type} (f : A -> B -> C) (l : list A) (m : list B)
  (i : nat) (da : A) (db : B) (dc : C) :
  (i < length l)%nat -> (i < length m)%nat ->
  nth i (map (fun p : A * B => f (fst p) (snd p)) (combine l m)) dc
  = f (nth i l da) (nth i m db).
Proof.
  revert m i. induction l as [| x l IH]; intros [| y m] [| i] Hl Hm;
    simpl in *; try lia; [reflexivity | apply IH; lia].
Qed.

Lemma length_zip {A B C : Type} (f : A * B -> C) (l : list A) (m : list B) :
  length l = length m -> length (map f (combine l m)) = length l.
Proof. intros H. rewrite length_map, length_combine. lia. Qed.

(** The statement [w[k:] = w[k:] - w[:-k]] on an array [c], for a positive
    [k]. *)
Lemma window_difference (c : list R) (k : Z) :
  (0 < k)%Z ->
  exists d w,
    broadcast Rminus (get_slice c (Some k) None)
                     (get_slice c None (Some (- k)%Z)) = Ok d
    /\ set_slice c (Some k) None d = Ok w
    /\ length w = length c
    /\ forall i, (i < length c)%nat ->
         nth i w 0 = if (i <? Z.to_nat k)%nat then nth i c 0
                     else nth i c 0 - nth (i - Z.to_nat k) c 0.
Proof.
  intros Hk. set (n := length c). set (s := Z.to_nat k).
  assert (Hlen : length (get_slice c (Some k) None)
                 = length (get_slice c None (Some (- k)%Z))).
  { unfold get_slice, slice_start, slice_stop.
    rewrite norm_index_nonneg, norm_index_from_end by lia.
    rewrite !length_firstn, !length_skipn. simpl. lia. }
  exists (map (fun p : R * R => fst p - snd p)
              (combine (get_slice c (Some k) None)
                       (get_slice c None (Some (- k)%Z)))).
  eexists. split.
  { unfold broadcast. rewrite Hlen, Nat.eqb_refl. reflexivity. }
  assert (Hd : length (map (fun p : R * R => fst p - snd p)
              (combine (get_slice c (Some k) None)
                       (get_slice c None (Some (- k)%Z)))) = (n - Nat.min s n)%nat).
  { rewrite length_zip by exact Hlen.
    unfold get_slice, slice_start, slice_stop.
    rewrite norm_index_nonneg by lia.
    rewrite length_firstn, length_skipn. fold n s. lia. }
  split.
  { unfold set_slice, slice_start, slice_stop.
    rewrite norm_index_nonneg by lia. fold n s. rewrite Hd, Nat.eqb_refl.
    reflexivity. }
  split.
  { apply splice_length; [exact Hd | fold n; lia]. }
  intros i Hi.
  rewrite splice_nth by (try exact Hd; fold n; lia).
  destruct (Nat.ltb_spec i (Nat.min s n)) as [H1 | H1];
    destruct (Nat.ltb_spec i s) as [H2 | H2]; try lia; try reflexivity.
  destruct (Nat.ltb_spec i (Nat.min s n + (n - Nat.min s n))) as [H3 | H3];
    [| fold n in Hi; lia].
  assert (Hs : Nat.min s n = s) by lia. rewrite Hs.
  rewrite (nth_zip Rminus _ _ _ 0 0).
  - unfold get_slice, slice_start, slice_stop.
    rewrite norm_index_nonneg, norm_index_from_end by lia. fold n s.
    rewrite !nth_firstn, !nth_skipn. simpl.
    rewrite Hs. decide_ltb. do 2 f_equal. lia.
  - unfold get_slice, slice_start, slice_stop.
    rewrite norm_index_nonneg by lia.
    rewrite length_firstn, length_skipn. fold n s. lia.
  - unfold get_slice, slice_start, slice_stop.
    rewrite norm_index_from_end by lia.
    rewrite length_firstn, length_skipn. fold n s. simpl. lia.
Qed.

Lemma nth_map_in {A B : Type} (f : A -> B) (l : list A) (i : nat) (d : A)
  (d' : B) :
  (i < length l)%nat -> nth i (map f l) d' = f (nth i l d).
Proof.
  intros Hi. rewrite (nth_indep _ d' (f d)) by (rewrite length_map; lia).
  apply map_nth.
Qed.

Lemma cumsum_from_length (acc : R) (l : list R) :
  length (cumsum_from acc l) = length l.
Proof.
  revert acc. induction l as [| x l IH]; intros acc; simpl;
    [reflexivity | rewrite IH; reflexivity].
Qed.

Lemma squares_cumsum_length (a : list R) :
  length (cumsum (map (fun x => x ^ 2) a)) = length a.
Proof. unfold cumsum. rewrite cumsum_from_length. apply length_map. Qed.

Lemma csum_nth (a : list R) (i : nat) :
  nth i (cumsum (map (fun x => x ^ 2) a)) 0 = csum a (Z.of_nat i).
Proof.
  unfold csum. destruct (Z.ltb_spec (Z.of_nat i) 0); [lia |].
  rewrite Nat2Z.id. reflexivity.
Qed.

Lemma csum_before (a : list R) (k : Z) : (k < 0)%Z -> csum a k = 0.
Proof. intros Hk. unfold csum. destruct (Z.ltb_spec k 0); [reflexivity | lia]. Qed.

(** The LTA array before the guard: a trailing average at every sample. *)
Lemma lta_windows_spec (a : list R) (nlta : Z) :
  (0 < nlta)%Z ->
  exists lta,
    lta_windows a nlta = Ok lta
    /\ length lta = length a
    /\ forall i, (i < length a)%nat ->
         nth i lta 0 = lta_upto a nlta (Z.of_nat i).
Proof.
  intros HL. unfold lta_windows.
  destruct (window_difference (cumsum (map (fun x => x ^ 2) a)) nlta HL)
    as (d & w & Hd & Hw & Hlen & Hnth).
  rewrite squares_cumsum_length in Hlen, Hnth.
  rewrite Hd. cbn [bind]. rewrite Hw. cbn [bind].
  eexists. split; [reflexivity |].
  split; [rewrite length_map; exact Hlen |].
  intros i Hi. rewrite (nth_map_in _ _ _ 0) by lia.
  rewrite Hnth by exact Hi. unfold lta_upto.
  destruct (Nat.ltb_spec i (Z.to_nat nlta)) as [H | H].
  - rewrite csum_nth, (csum_before a (Z.of_nat i - nlta)) by lia.
    f_equal. ring.
  - rewrite !csum_nth. do 3 f_equal. lia.
Qed.

(** The STA array before the guard: the average over the window that
    follows the sample, and zero at both ends. *)
Lemma sta_windows_spec (a : list R) (nsta nlta : Z) :
  (0 < nsta)%Z -> (0 < nlta)%Z ->
  exists sta,
    sta_windows a nsta nlta = Ok sta
    /\ length sta = length a
    /\ forall i, (i < length a)%nat ->
         nth i sta 0 =
           if (length a - Z.to_nat nsta <=? i)%nat then 0
           else if (i <? Z.to_nat (nlta - 1))%nat then 0
           else if (Z.to_nat nsta <=? i)%nat
                then sta_after a nsta (Z.of_nat i)
                else csum a (Z.of_nat i) / IZR nsta.
Proof.
  intros Hs HL. unfold sta_windows.
  destruct (window_difference (cumsum (map (fun x => x ^ 2) a)) nsta Hs)
    as (d & w & Hd & Hw & Hlen & Hnth).
  rewrite squares_cumsum_length in Hlen, Hnth.
  rewrite Hd. cbn [bind]. rewrite Hw. cbn [bind].
  set (n := length a) in *. set (s := Z.to_nat nsta) in *.
  assert (Hs2 : Z.to_nat (nsta * 2) = (2 * s)%nat) by (unfold s; lia).
  assert (Hv : length (get_slice w (Some (nsta * 2)%Z) None)
               = (n - s - Nat.min s n)%nat).
  { unfold get_slice, slice_start, slice_stop.
    rewrite norm_index_nonneg by lia.
    rewrite length_firstn, length_skipn, Hlen, Hs2. lia. }
  unfold set_slice at 1. unfold slice_start, slice_stop.
  rewrite (norm_index_nonneg _ nsta), (norm_index_from_end _ nsta) by lia.
  rewrite Hlen. fold s. rewrite Hv, Nat.eqb_refl. cbn [bind].
  set (sta2 := splice w (Nat.min s n) (n - s - Nat.min s n)
                     (get_slice w (Some (nsta * 2)%Z) None)).
  assert (H2 : length sta2 = n).
  { unfold sta2. rewrite splice_length; [exact Hlen | exact Hv | lia]. }
  set (sta3 := map (fun x => x / IZR nsta) sta2).
  assert (H3 : length sta3 = n) by (unfold sta3; rewrite length_map; exact H2).
  unfold fill_slice at 2. unfold slice_start, slice_stop.
  rewrite norm_index_nonneg by lia. rewrite H3, Nat.sub_0_r.
  set (m := Nat.min (Z.to_nat (nlta - 1)) n).
  set (sta4 := splice sta3 0 m (repeat 0 m)).
  assert (H4 : length sta4 = n).
  { unfold sta4. rewrite splice_length; [exact H3 | apply repeat_length | lia]. }
  unfold fill_slice, slice_start, slice_stop.
  rewrite norm_index_from_end by lia. rewrite H4. fold s.
  eexists. split; [reflexivity |].
  split.
  { rewrite splice_length; [exact H4 | apply repeat_length | lia]. }
  intros i Hi.
  rewrite splice_nth by (try apply repeat_length; lia).
  destruct (Nat.leb_spec (n - s) i) as [G1 | G1].
  { decide_ltb; apply nth_repeat. }
  destruct (Nat.ltb_spec i (n - s)) as [_ | ?]; [| lia].
  unfold sta4. rewrite splice_nth by (try apply repeat_length; lia).
  rewrite Nat.add_0_l, Nat.sub_0_r.
  destruct (Nat.ltb_spec i 0) as [? | _]; [lia |].
  destruct (Nat.ltb_spec i (Z.to_nat (nlta - 1))) as [G2 | G2].
  { destruct (Nat.ltb_spec i m) as [_ | ?]; [| lia]. apply nth_repeat. }
  destruct (Nat.ltb_spec i m) as [? | _]; [lia |].
  unfold sta3. rewrite (nth_map_in _ _ _ 0) by lia.
  unfold sta2. rewrite splice_nth by (try exact Hv; lia).
  destruct (Nat.leb_spec s i) as [G3 | G3].
  - destruct (Nat.ltb_spec i (Nat.min s n)) as [? | _]; [lia |].
    destruct (Nat.ltb_spec i (Nat.min s n + (n - s - Nat.min s n)))
      as [_ | ?]; [| lia].
    unfold get_slice, slice_start, slice_stop.
    rewrite norm_index_nonneg by lia. rewrite Hlen, Hs2.
    rewrite nth_firstn, nth_skipn. decide_ltb.
    rewrite Hnth by lia. decide_ltb.
    unfold sta_after. rewrite !csum_nth. f_equal. f_equal; f_equal; lia.
  - destruct (Nat.ltb_spec i (Nat.min s n)) as [_ | ?]; [| lia].
    rewrite Hnth by lia. decide_ltb. rewrite csum_nth. reflexivity.
Qed.

(** ** The guard and the ratio *)

Lemma guarded_ratio_finite (s l : R) :
  guarded_ratio s l = Some (if Rlt_dec l dtiny then 0 else s / l).
Proof.
  pose proof dtiny_pos as Ht. unfold guarded_ratio, fdiv.
  destruct (Rlt_dec l dtiny) as [Hl | Hl].
  - destruct (Req_dec_T dtiny 0) as [E | _]; [lra |].
    f_equal. unfold Rdiv. ring.
  - destruct (Req_dec_T l 0) as [E | _]; [lra | reflexivity].
Qed.


(** The guard and the division of [sta_lta_centred], sample by sample. *)
Lemma guard_and_divide (sta lta : list R) :
  length sta = length lta ->
  (let idx := map (fun l => if Rlt_dec l dtiny then true else false) lta in
   lta' <- mask_assign lta idx dtiny ;;
   sta' <- mask_assign sta idx 0 ;;
   broadcast fdiv sta' lta')
  = Ok (map (fun p : R * R => guarded_ratio (fst p) (snd p)) (combine sta lta)).
Proof.
  intros Hlen. cbv zeta. unfold mask_assign.
  rewrite length_map, Nat.eqb_refl. cbn [bind].
  rewrite <- Hlen, Nat.eqb_refl. cbn [bind].
  unfold broadcast.
  rewrite !length_map, !length_combine, !length_map, <- Hlen, Nat.eqb_refl.
  f_equal. revert lta Hlen.
  induction sta as [| s sta IH]; intros [| l lta] Hlen; simpl in *;
    try discriminate; [reflexivity |].
  rewrite IH by lia. f_equal. unfold guarded_ratio.
  destruct (Rlt_dec l dtiny); reflexivity.
Qed.

(** [sta_lta_centred] returns for positive window lengths, and its value
    at every sample is the guarded ratio of the two averages. *)
Lemma sta_lta_centred_spec (a : list R) (nsta nlta : Z) :
  (0 < nsta)%Z -> (0 < nlta)%Z ->
  exists sta lta,
    sta_windows a nsta nlta = Ok sta
    /\ lta_windows a nlta = Ok lta
    /\ length sta = length a /\ length lta = length a
    /\ sta_lta_centred a nsta nlta
       = Ok (map (fun p : R * R => guarded_ratio (fst p) (snd p))
                 (combine sta lta)).
Proof.
  intros Hs HL.
  destruct (sta_windows_spec a nsta nlta Hs HL) as (sta & Es & Hsl & _).
  destruct (lta_windows_spec a nlta HL) as (lta & El & Hll & _).
  exists sta, lta. repeat split; try assumption.
  unfold sta_lta_centred. rewrite !int_round_id, Es, El. cbn [bind].
  apply guard_and_divide. congruence.
Qed.

Lemma sta_lta_centred_nth (a : list R) (nsta nlta : Z) :
  (0 < nsta)%Z -> (0 < nlta)%Z ->
  exists sta lta ratio,
    sta_windows a nsta nlta = Ok sta
    /\ lta_windows a nlta = Ok lta
    /\ sta_lta_centred a nsta nlta = Ok ratio
    /\ length ratio = length a
    /\ forall i, (i < length a)%nat ->
         nth i ratio None = guarded_ratio (nth i sta 0) (nth i lta 0).
Proof.
  intros Hs HL.
  destruct (sta_lta_centred_spec a nsta nlta Hs HL)
    as (sta & lta & Es & El & Hsl & Hll & E).
  exists sta, lta. eexists. repeat split; try eassumption.
  - rewrite length_zip; congruence.
  - intros i Hi. apply nth_zip; lia.
Qed.

Lemma dtiny_small : dtiny < 1 / 1000.
Proof.
  unfold dtiny.
  assert (H : 2 ^ 10 <= 2 ^ 1022) by (apply Rle_pow; [lra | lia]).
  assert (H10 : 2 ^ 10 = 1024) by (simpl; lra).
  rewrite H10 in H.
  assert (Hp : 0 < 2 ^ 1022) by (apply pow_lt; lra).
  apply (Rmult_lt_reg_r (2 ^ 1022)); [exact Hp |].
  rewrite Rinv_l by lra. lra.
Qed.


(** The ratio of the centred mode at a sample that has a full long-term
    window behind it and a full short-term window ahead. *)
Lemma centred_ratio_interior (a : list R) (nsta nlta : Z) (ratio : list float)
  (i : nat) :
  (0 < nsta < nlta)%Z ->
  sta_lta_centred a nsta nlta = Ok ratio ->
  (Z.to_nat (nlta - 1) <= i < length a - Z.to_nat nsta)%nat ->
  nth i ratio None
  = guarded_ratio (sta_after a nsta (Z.of_nat i))
                  (lta_upto a nlta (Z.of_nat i)).
Proof.
  intros Hw E Hi.
  destruct (sta_lta_centred_nth a nsta nlta) as
    (sta & lta & ratio' & Es & El & E' & _ & Hnth); try lia.
  rewrite E in E'. injection E' as <-.
  destruct (sta_windows_spec a nsta nlta) as (sta' & Es' & _ & Hsta); try lia.
  destruct (lta_windows_spec a nlta) as (lta' & El' & _ & Hlta); try lia.
  rewrite Es in Es'. rewrite El in El'.
  injection Es' as <-. injection El' as <-.
  rewrite Hnth, Hsta, Hlta by lia.
  destruct (Nat.leb_spec (length a - Z.to_nat nsta) i); [lia |].
  destruct (Nat.ltb_spec i (Z.to_nat (nlta - 1))); [lia |].
  destruct (Nat.leb_spec (Z.to_nat nsta) i); [reflexivity | lia].
Qed.



Lemma csum_111 :
  csum [1; 1; 1] (-1) = 0 /\ csum [1; 1; 1] 0 = 1 /\ csum [1; 1; 1] 1 = 2
  /\ csum [1; 1; 1] 2 = 3.
Proof. unfold csum; simpl; repeat split; lra. Qed.



(** ** The loop over the channels *)

Lemma for_each_nth_error {A B : Type} (f : A -> result B) (l : list A)
  (ys : list B) (c : nat) (x : A) :
  for_each f l = Ok ys -> nth_error l c = Some x ->
  exists y, nth_error ys c = Some y /\ f x = Ok y.
Proof.
  revert ys c. induction l as [| x0 l IH]; intros ys c E Hc.
  - destruct c; discriminate.
  - simpl in E. destruct (f x0) as [y0 |] eqn:E0; [| discriminate].
    simpl in E. destruct (for_each f l) as [ys' |] eqn:E'; [| discriminate].
    injection E as <-. destruct c as [| c]; simpl in *.
    + injection Hc as <-. exists y0. split; [reflexivity | exact E0].
    + apply (IH ys' c eq_refl Hc).
Qed.

Lemma for_each_total {A B : Type} (f : A -> result B) (l : list A) :
  (forall x, In x l -> exists y, f x = Ok y) ->
  exists ys, for_each f l = Ok ys /\ length ys = length l.
Proof.
  induction l as [| x l IH]; intros H.
  - exists []. split; reflexivity.
  - destruct (H x (or_introl eq_refl)) as (y & Ey).
    destruct IH as (ys & Eys & Hlen); [intros z Hz; apply H; right; exact Hz |].
    exists (y :: ys). simpl. rewrite Ey. simpl. rewrite Eys. simpl.
    split; [reflexivity | congruence].
Qed.

(** ** [onset] *)

Lemma onset_value_finite (r : R) :
  onset_value (Some r) = Some (ln (Rmax (1 + r) (8 / 10))).
Proof.
  unfold onset_value, fadd1, fclip, flog. simpl.
  destruct (Rlt_dec 0 (Rmax (1 + r) (8 / 10))) as [_ | H]; [reflexivity |].
  exfalso. apply H. pose proof (Rmax_r (1 + r) (8 / 10)). lra.
Qed.


Section OnsetFacts.
Context {L : SignalLib}.

(** A channel whose samples sum to zero is given a zero onset. *)
Lemma onset_row_bypassed (row : list R) (stw ltw : Z) (centred : bool) :
  np_sum row = 0 ->
  onset_row row stw ltw centred = Ok (repeat (Some 0) (length row)).
Proof.
  intros H. unfold onset_row.
  destruct (Req_dec_T (np_sum row) 0); [reflexivity | contradiction].
Qed.

(** On any other channel the centred mode takes the natural logarithm of
    the clipped, shifted ratio. *)
Lemma onset_row_centred (row : list R) (stw ltw : Z) :
  (0 < stw)%Z -> (0 < ltw)%Z -> np_sum row <> 0 ->
  exists ratio,
    sta_lta_centred row stw ltw = Ok ratio
    /\ length ratio = length row
    /\ onset_row row stw ltw true = Ok (map onset_value ratio).
Proof.
  intros Hs Hl Hsum.
  destruct (sta_lta_centred_nth row stw ltw Hs Hl)
    as (sta & lta & ratio & _ & _ & E & Hlen & _).
  exists ratio. split; [exact E |]. split; [exact Hlen |].
  unfold onset_row.
  destruct (Req_dec_T (np_sum row) 0); [contradiction |].
  rewrite E. cbn [bind]. unfold assign_row.
  rewrite Hlen, Nat.eqb_refl. cbn [bind].
  rewrite map_map. reflexivity.
Qed.

End OnsetFacts.

Section OnsetArrays.
Context {L : SignalLib}.

Lemma onset_rows (sig : list (list R)) (stw ltw : Z) (centred : bool) :
  onset sig stw ltw centred
  = for_each (fun row => onset_row row stw ltw centred) sig.
Proof. unfold onset. rewrite !int_round_id. reflexivity. Qed.


End OnsetArrays.






Lemma ln_10_above_1 : 1 < ln 10.
Proof.
  rewrite <- (ln_exp 1) at 1. apply ln_increasing; [apply exp_pos |].
  pose proof exp_le_3. lra.
Qed.

Lemma log10_below_ln (x : R) : 1 < x -> log10 x < ln x.
Proof.
  intros Hx. pose proof ln_10_above_1 as H10.
  assert (Hl : 0 < ln x) by (rewrite <- ln_1; apply ln_increasing; lra).
  unfold log10. apply (Rmult_lt_reg_r (ln 10)); [lra |].
  unfold Rdiv. rewrite Rmult_assoc, Rinv_l by lra. nra.
Qed.

Lemma ratio_111 :
  exists ratio,
    sta_lta_centred [1; 1; 1] 1 2 = Ok ratio
    /\ length ratio = 3%nat
    /\ nth 1 ratio None = Some 1.
Proof.
  destruct (sta_lta_centred_nth [1; 1; 1] 1 2)
    as (_ & _ & ratio & _ & _ & E & Hlen & _); try lia.
  exists ratio. split; [exact E |]. split; [exact Hlen |].
  rewrite (centred_ratio_interior [1; 1; 1] 1 2 ratio 1)
    by (try exact E; simpl; lia).
  destruct csum_111 as (Hm1 & H0 & H1 & H2).
  rewrite guarded_ratio_finite.
  unfold sta_after, lta_upto. simpl Z.of_nat. simpl Z.add. simpl Z.sub.
  rewrite Hm1, H1, H2. pose proof dtiny_small.
  destruct (Rlt_dec ((2 - 0) / 2) dtiny); [lra |].
  f_equal. field.
Qed.

(** C1.  The source takes the natural logarithm, [np.log], where its
    documentation and the specification say log10: on the one-channel
    array 1, 1, 1 with windows of 1 and 2 samples, in centred mode, the
    channel is not bypassed, the ratio at index 1 is 1, and the onset value
    there is ln 2, which is not log10(clip(1 + 1, 0.8, inf)). *)
Theorem onset_takes_the_natural_logarithm :
  exists ratio out,
    np_sum [1; 1; 1] <> 0
    /\ sta_lta_centred [1; 1; 1] 1 2 = Ok ratio
    /\ nth 1 ratio None = Some 1
    /\ onset (L := reference_lib) [[1; 1; 1]] 1 2 true = Ok out
    /\ nth 1 (nth 0 out []) None = Some (ln 2)
    /\ nth 1 (nth 0 out []) None <> Some (log10 (Rmax (1 + 1) (8 / 10))).
Proof.
  assert (Hsum : np_sum [1; 1; 1] <> 0) by (unfold np_sum; simpl; lra).
  destruct ratio_111 as (ratio & E & Hlen & H1).
  destruct (onset_row_centred (L := reference_lib) [1; 1; 1] 1 2)
    as (ratio' & E' & _ & Eo); try lia; try exact Hsum.
  rewrite E in E'. injection E' as <-.
  assert (Hv : nth 1 (map onset_value ratio) None = Some (ln 2)).
  { rewrite (nth_map_in onset_value ratio 1 None None) by lia.
    rewrite H1, onset_value_finite. do 2 f_equal.
    rewrite Rmax_left by lra. lra. }
  exists ratio, [map onset_value ratio].
  split; [exact Hsum |]. split; [exact E |]. split; [exact H1 |].
  split; [rewrite onset_rows; simpl; rewrite Eo; reflexivity |].
  change (nth 0 [map onset_value ratio] []) with (map onset_value ratio).
  split; [exact Hv |].
  rewrite Hv. intros N. injection N as N.
  rewrite Rmax_left in N by lra.
  pose proof (log10_below_ln (1 + 1)).
  replace (1 + 1) with 2 in * by lra. lra.
Qed.

(** ** The pads *)

Section Pads.
Context {B : OnsetBase}.

(** C7.  Reading [pre_pad] returns max(p_long, s_long) + 3 *
    max(p_short, s_short) for every configured pair of onset windows,
    whatever was assigned to the property before; with the default
    windows this is 1.6. *)
Theorem pre_pad_from_windows :
  (forall self : ClassicSTALTAOnset,
      pre_pad self
      = Rmax (snd (p_onset_win self)) (snd (s_onset_win self))
        + 3 * Rmax (fst (p_onset_win self)) (fst (s_onset_win self)))
  /\ (forall (self : ClassicSTALTAOnset) (value : R),
         pre_pad (pre_pad_setter self value) = pre_pad self)
  /\ (forall rate : Z, pre_pad (init rate) = 16 / 10).
Proof.
  split; [reflexivity |]. split; [reflexivity |].
  intros rate. unfold pre_pad, init. simpl.
  rewrite !Rmax_left by lra. lra.
Qed.

(** C8.  After the caller assigns a maximum travel time [ttmax] to
    [post_pad], reading [post_pad] returns ceil(ttmax + 2 * max(p_long,
    s_long)); for ttmax = 10 with the default windows this is 12. *)
Theorem post_pad_after_assignment :
  (forall (self : ClassicSTALTAOnset) (ttmax : R),
      post_pad (post_pad_setter self ttmax)
      = Ok (np_ceil (ttmax + 2 * Rmax (snd (p_onset_win self))
                                      (snd (s_onset_win self)))))
  /\ (forall rate : Z, post_pad (post_pad_setter (init rate) 10) = Ok 12).
Proof.
  split; [reflexivity |].
  intros rate. unfold post_pad, post_pad_setter, init. simpl. f_equal.
  rewrite Rmax_left by lra.
  replace (10 + 2 * 1) with (IZR 12) by lra. apply np_ceil_IZR.
Qed.

(** [__init__] assigns no post-pad of its own: read before the setter was
    called, [post_pad] gives what the constructor of the base class left,
    and raises when that left nothing; [pre_pad] never depends on it. *)
Lemma post_pad_after_init (rate : Z) :
  post_pad (init rate) = attribute (snd Onset_init)
  /\ post_pad (centred_init rate) = attribute (snd Onset_init).
Proof. split; unfold post_pad; cbn; destruct (snd Onset_init); reflexivity. Qed.
End Pads.

(** ** The window lengths *)

Lemma Int_part_between (x : R) (z : Z) :
  IZR z <= x < IZR z + 1 -> Int_part x = z.
Proof. intros H. symmetry. apply Int_part_spec. lra. Qed.

Section Windows.
Context {L : SignalLib}.

(** [p_onset] and [s_onset] as compositions of [filter], of [onset] and
    of the combination of the two horizontal components. *)
Lemma p_onset_result (self : ClassicSTALTAOnset) :
  fst (p_onset self)
  = (raw <- attribute (sigz self) ;;
     fz <- filter raw (sampling_rate self) (fst (fst (p_bp_filter self)))
                  (snd (fst (p_bp_filter self))) (snd (p_bp_filter self)) ;;
     onset fz (window_samples (fst (p_onset_win self)) (sampling_rate self))
           (window_samples (snd (p_onset_win self)) (sampling_rate self))
           (onset_centred self)).
Proof.
  unfold p_onset.
  destruct (p_onset_win self) as [st lt].
  destruct (p_bp_filter self) as [[lc hc] ord_].
  cbn [fst snd].
  destruct (sigz self) as [z |]; [| reflexivity]. cbn [attribute bind].
  destruct (filter z (sampling_rate self) lc hc ord_) as [fz | e];
    reflexivity.
Qed.

Lemma s_onset_result (self : ClassicSTALTAOnset) :
  fst (s_onset self)
  = (raw_e <- attribute (sige self) ;;
     fe <- filter raw_e (sampling_rate self) (fst (fst (s_bp_filter self)))
                  (snd (fst (s_bp_filter self))) (snd (s_bp_filter self)) ;;
     raw_n <- attribute (sign self) ;;
     fn <- filter raw_n (sampling_rate self) (fst (fst (s_bp_filter self)))
                  (snd (fst (s_bp_filter self))) (snd (s_bp_filter self)) ;;
     s_e_onset <-
       onset fe (window_samples (fst (s_onset_win self)) (sampling_rate self))
             (window_samples (snd (s_onset_win self)) (sampling_rate self))
             (onset_centred self) ;;
     s_n_onset <-
       onset fn (window_samples (fst (s_onset_win self)) (sampling_rate self))
             (window_samples (snd (s_onset_win self)) (sampling_rate self))
             (onset_centred self) ;;
     rms_combine s_e_onset s_n_onset).
Proof.
  unfold s_onset.
  destruct (s_onset_win self) as [st lt].
  destruct (s_bp_filter self) as [[lc hc] ord_].
  cbn [fst snd].
  destruct (sige self) as [e |]; [| reflexivity]. cbn [attribute bind].
  destruct (filter e (sampling_rate self) lc hc ord_) as [fe | ex];
    [| reflexivity].
  change (sign (set_filt_sige self fe)) with (sign self).
  change (sampling_rate (set_filt_sige self fe)) with (sampling_rate self).
  destruct (sign self) as [n |]; [| reflexivity]. cbn [attribute bind].
  destruct (filter n (sampling_rate self) lc hc ord_) as [fn | ex];
    reflexivity.
Qed.

(** C4, as amended.  The window lengths that [p_onset] and [s_onset]
    hand to the STA/LTA computation of every channel are int(seconds *
    sampling_rate) + 1, where int truncates towards zero; the rounding
    that [onset] applies to them leaves them as they are. *)
Theorem window_lengths_truncate (self : ClassicSTALTAOnset) :
  let rate := sampling_rate self in
  let count (seconds : R) := (py_int (seconds * IZR rate) + 1)%Z in
  let rows (win : R * R) (fsig : list (list R)) :=
    for_each (fun row => onset_row row (count (fst win)) (count (snd win))
                           (onset_centred self)) fsig in
  let filtered (bp : R * R * Z) (raw : list (list R)) :=
    filter raw rate (fst (fst bp)) (snd (fst bp)) (snd bp) in
  fst (p_onset self)
  = (raw <- attribute (sigz self) ;;
     fz <- filtered (p_bp_filter self) raw ;;
     rows (p_onset_win self) fz)
  /\ fst (s_onset self)
     = (raw_e <- attribute (sige self) ;;
        fe <- filtered (s_bp_filter self) raw_e ;;
        raw_n <- attribute (sign self) ;;
        fn <- filtered (s_bp_filter self) raw_n ;;
        s_e_onset <- rows (s_onset_win self) fe ;;
        s_n_onset <- rows (s_onset_win self) fn ;;
        rms_combine s_e_onset s_n_onset).
Proof.
  cbv zeta. rewrite p_onset_result, s_onset_result. unfold window_samples.
  split.
  - destruct (attribute (sigz self)) as [raw |]; [| reflexivity].
    cbn [bind].
    destruct (filter raw _ _ _ _) as [fz |]; [| reflexivity].
    cbn [bind]. apply onset_rows.
  - destruct (attribute (sige self)) as [raw_e |]; [| reflexivity].
    cbn [bind].
    destruct (filter raw_e _ _ _ _) as [fe |]; [| reflexivity].
    cbn [bind].
    destruct (attribute (sign self)) as [raw_n |]; [| reflexivity].
    cbn [bind].
    destruct (filter raw_n _ _ _ _) as [fn |]; [| reflexivity].
    cbn [bind]. rewrite !onset_rows. reflexivity.
Qed.
End Windows.

(** C4, as stated, fails: a short window of 0.2 s sampled at 8 Hz spans
    1.6 samples; the source counts int(1.6) + 1 = 2 samples, and
    round(1.6) + 1 is 3. *)
Lemma window_samples_are_not_rounded :
  window_samples (2 / 10) 8 = 2%Z
  /\ (py_round (2 / 10 * IZR 8) + 1)%Z = 3%Z
  /\ window_samples (2 / 10) 8 <> (py_round (2 / 10 * IZR 8) + 1)%Z.
Proof.
  assert (Hi : Int_part (2 / 10 * 8) = 1%Z) by (apply Int_part_between; lra).
  assert (Hw : window_samples (2 / 10) 8 = 2%Z).
  { unfold window_samples. rewrite (py_int_bounds _ 1); [reflexivity | lra | lra]. }
  assert (Hr : (py_round (2 / 10 * IZR 8) + 1)%Z = 3%Z).
  { unfold py_round. rewrite Hi.
    destruct (Rlt_dec (2 / 10 * 8 - 1) (1 / 2)) as [H | _]; [lra |].
    destruct (Rlt_dec (1 / 2) (2 / 10 * 8 - 1)) as [_ | H]; [reflexivity | lra]. }
  split; [exact Hw |]. split; [exact Hr |]. rewrite Hw, Hr. discriminate.
Qed.

(** ** The combination of the horizontal components *)

Lemma rms_finite (x y : R) :
  rms (Some x) (Some y) = Some (sqrt ((x * x + y * y) / 2)).
Proof.
  unfold rms, fsq, fadd, fhalf, fsqrt. simpl.
  destruct (Rlt_dec ((x * x + y * y) / 2) 0) as [H | _]; [| reflexivity].
  exfalso. nra.
Qed.

Lemma broadcast_same_length {A B C : Type} (f : A -> B -> C) (l : list A)
  (m : list B) :
  length l = length m ->
  broadcast f l m
  = Ok (map (fun p : A * B => f (fst p) (snd p)) (combine l m)).
Proof. intros H. unfold broadcast. rewrite H, Nat.eqb_refl. reflexivity. Qed.

Lemma rms_rows (e n : list float) :
  length e = length n ->
  map (fun x : float => fsqrt (fhalf x))
      (map (fun q : float * float => fadd (fst q) (snd q))
           (combine (map fsq e) (map fsq n)))
  = map (fun p : float * float => rms (fst p) (snd p)) (combine e n).
Proof.
  revert n. induction e as [| x e IH]; intros [| y n] H; simpl in *;
    try discriminate; [reflexivity |].
  rewrite IH by lia. reflexivity.
Qed.

(** On two arrays of the same shape [rms_combine] returns, and is the
    root mean square element by element. *)
Lemma rms_combine_same_shape (e n : list (list float)) :
  same_shape e n ->
  rms_combine e n
  = Ok (map (fun p : list float * list float =>
               map (fun q : float * float => rms (fst q) (snd q))
                   (combine (fst p) (snd p)))
            (combine e n)).
Proof.
  intros H. unfold rms_combine.
  rewrite broadcast_same_length
    by (rewrite !length_map; apply (Forall2_length H)).
  cbn [bind].
  assert (E : for_each (fun r : result (list float) => r)
                (map (fun p : list float * list float =>
                        broadcast fadd (fst p) (snd p))
                     (combine (map (map fsq) e) (map (map fsq) n)))
              = Ok (map (fun p : list float * list float =>
                           map (fun q : float * float => fadd (fst q) (snd q))
                               (combine (map fsq (fst p)) (map fsq (snd p))))
                        (combine e n))).
  { induction H as [| re rn e n Hr H IH]; [reflexivity |].
    simpl. rewrite broadcast_same_length by (rewrite !length_map; exact Hr).
    cbn [bind]. rewrite IH. reflexivity. }
  rewrite E. cbn [bind]. f_equal. clear E.
  induction H as [| re rn e n Hr H IH]; [reflexivity |].
  simpl. rewrite IH. f_equal. apply (rms_rows re rn Hr).
Qed.

Lemma nth_combined_rows (e n : list (list float)) (c i : nat) :
  same_shape e n ->
  (c < length e)%nat -> (i < length (nth c e []))%nat ->
  nth i (nth c (map (fun p : list float * list float =>
                       map (fun q : float * float => rms (fst q) (snd q))
                           (combine (fst p) (snd p)))
                    (combine e n)) []) None
  = rms (nth i (nth c e []) None) (nth i (nth c n []) None).
Proof.
  intros H. revert c. induction H as [| re rn e n Hr H IH]; intros c Hc Hi.
  - simpl in Hc. lia.
  - destruct c as [| c]; simpl in *.
    + apply (nth_zip rms re rn i None None None); lia.
    + apply IH; [lia | exact Hi].
Qed.

(** ** [filter] on a silent channel *)

Lemma zeros_times (n : nat) (tap : list R) :
  length tap = n ->
  map (fun p : R * R => fst p * snd p) (combine (repeat 0 n) tap)
  = repeat 0 n.
Proof.
  revert tap. induction n as [| n IH]; intros [| t tap] H; simpl in *;
    try discriminate; [reflexivity |].
  rewrite IH by lia. f_equal. ring.
Qed.

Lemma zeros_minus_first (n : nat) :
  map (fun x => x - 0) (repeat 0 n) = repeat 0 n.
Proof.
  induction n as [| n IH]; [reflexivity |].
  simpl. rewrite IH. f_equal. ring.
Qed.

Lemma rev_zeros (n : nat) : rev (repeat 0 n) = repeat 0 n.
Proof.
  induction n as [| n IH]; [reflexivity |].
  simpl. rewrite IH. symmetry. apply repeat_cons.
Qed.

Lemma assign_row_same_length {A : Type} (v : list A) :
  assign_row (length v) v = Ok v.
Proof. unfold assign_row. rewrite Nat.eqb_refl. reflexivity. Qed.

Section FilterFacts.
Context {L : SignalLib}.

(** A trace of zeros stays a trace of zeros, when the taper has the
    length of the trace and [lfilter] answers zeros with zeros. *)
Lemma filter_row_silent (b1 a1 : list R) (n : nat) :
  (0 < n)%nat ->
  length (cosine_taper n (1 / 10)) = n ->
  lfilter b1 a1 (repeat 0 n) = Some (repeat 0 n) ->
  filter_row b1 a1 (repeat 0 n) = Ok (repeat 0 n).
Proof.
  intros Hn Htap Hl. unfold filter_row.
  assert (H0 : match repeat 0 n with
               | [] => Raise IndexError
               | x :: _ => Ok x
               end = Ok 0).
  { destruct n; [lia | reflexivity]. }
  rewrite H0. cbn [bind].
  rewrite zeros_minus_first, repeat_length.
  rewrite broadcast_same_length by (rewrite repeat_length; congruence).
  cbn [bind]. rewrite zeros_times by exact Htap.
  rewrite <- (repeat_length 0 n) at 1. rewrite assign_row_same_length.
  cbn [bind]. rewrite rev_zeros, Hl. cbn [library_call bind].
  rewrite rev_zeros.
  rewrite <- (repeat_length 0 n) at 1. rewrite assign_row_same_length.
  cbn [bind]. rewrite Hl. cbn [library_call bind].
  rewrite <- (repeat_length 0 n) at 1. apply assign_row_same_length.
Qed.

Lemma np_sum_zeros (n : nat) : np_sum (repeat 0 n) = 0.
Proof.
  unfold np_sum. induction n as [| n IH]; [reflexivity |].
  simpl. rewrite Rplus_0_l. exact IH.
Qed.
End FilterFacts.

(** The reference routines. *)

Lemma dot_zeros (c x : list R) : Forall (eq 0) x -> dot c x = 0.
Proof.
  intros H. revert c. induction H as [| x0 x <- _ IH]; intros [| c0 c];
    simpl; try reflexivity.
  rewrite IH. ring.
Qed.

Lemma difference_equation_zeros (b a : list R) (a0 : R) (xpast ypast : list R)
  (n : nat) :
  Forall (eq 0) xpast -> Forall (eq 0) ypast ->
  difference_equation b a a0 xpast ypast (repeat 0 n) = repeat 0 n.
Proof.
  revert xpast ypast. induction n as [| n IH]; intros xpast ypast Hx Hy;
    [reflexivity |].
  simpl.
  assert (E : (dot b (0 :: xpast) - dot a ypast) / a0 = 0).
  { rewrite !dot_zeros by (try constructor; auto). unfold Rdiv. ring. }
  rewrite E. f_equal. apply IH; constructor; auto.
Qed.

Lemma direct_lfilter_zeros (b a : list R) (a0 : R) (n : nat) :
  a0 <> 0 -> direct_lfilter b (a0 :: a) (repeat 0 n) = Some (repeat 0 n).
Proof.
  intros H. unfold direct_lfilter.
  destruct (Req_dec_T a0 0); [contradiction |].
  rewrite difference_equation_zeros by constructor. reflexivity.
Qed.

Lemma two_tap_design_in_range (order : Z) (w1 w2 : R) :
  0 < w1 < 1 -> 0 < w2 < 1 ->
  two_tap_design order w1 w2 = Some ([1; 0; -1], [1]).
Proof.
  intros H1 H2. unfold two_tap_design.
  destruct (Rlt_dec 0 w1); [| lra]. destruct (Rlt_dec w1 1); [| lra].
  destruct (Rlt_dec 0 w2); [| lra]. destruct (Rlt_dec w2 1); [| lra].
  reflexivity.
Qed.

Lemma reference_filter_row_silent (n : nat) :
  (0 < n)%nat ->
  filter_row (L := reference_lib) [1; 0; -1] [1] (repeat 0 n)
  = Ok (repeat 0 n).
Proof.
  intros Hn. apply filter_row_silent; [exact Hn | apply repeat_length |].
  apply direct_lfilter_zeros. lra.
Qed.

(** Three silent samples under the default P filter at 50 Hz. *)
Lemma reference_filter_silence :
  filter (L := reference_lib) [[0; 0; 0]] 50 2 16 2 = Ok [[0; 0; 0]]
  /\ filter (L := reference_lib) [[0; 0; 0]] 50 2 12 2 = Ok [[0; 0; 0]].
Proof.
  unfold filter. cbn [Z.eqb butter reference_lib].
  rewrite !two_tap_design_in_range by lra. cbn [library_call bind for_each].
  change [0; 0; 0] with (repeat 0 3).
  rewrite (reference_filter_row_silent 3) by lia. split; reflexivity.
Qed.

Lemma combined_rows_shape (e n : list (list float)) :
  same_shape e n ->
  same_shape (map (fun p : list float * list float =>
                     map (fun q : float * float => rms (fst q) (snd q))
                         (combine (fst p) (snd p)))
                  (combine e n)) e.
Proof.
  intros H. induction H as [| re rn e n Hr H IH]; [constructor |].
  simpl. constructor; [| exact IH].
  rewrite length_map, length_combine. lia.
Qed.

Section Combination.
Context {L : SignalLib}.

(** C6.  When the onset functions [e] and [n] of the east and north
    components have the same shape, [s_onset] returns an array of that
    shape whose value at every index is the root mean square
    sqrt((e[i]^2 + n[i]^2) / 2) of the two values there. *)
Theorem s_onset_root_mean_square (self : ClassicSTALTAOnset)
  (raw_e raw_n fe fn : list (list R)) (e n : list (list float)) :
  sige self = Some raw_e ->
  sign self = Some raw_n ->
  filter raw_e (sampling_rate self) (fst (fst (s_bp_filter self)))
         (snd (fst (s_bp_filter self))) (snd (s_bp_filter self)) = Ok fe ->
  filter raw_n (sampling_rate self) (fst (fst (s_bp_filter self)))
         (snd (fst (s_bp_filter self))) (snd (s_bp_filter self)) = Ok fn ->
  onset fe (window_samples (fst (s_onset_win self)) (sampling_rate self))
        (window_samples (snd (s_onset_win self)) (sampling_rate self))
        (onset_centred self) = Ok e ->
  onset fn (window_samples (fst (s_onset_win self)) (sampling_rate self))
        (window_samples (snd (s_onset_win self)) (sampling_rate self))
        (onset_centred self) = Ok n ->
  same_shape e n ->
  exists out,
    fst (s_onset self) = Ok out
    /\ same_shape out e
    /\ (forall c i, (c < length e)%nat -> (i < length (nth c e []))%nat ->
          nth i (nth c out []) None
          = rms (nth i (nth c e []) None) (nth i (nth c n []) None))
    /\ (forall x y : R,
          rms (Some x) (Some y) = Some (sqrt ((x * x + y * y) / 2))).
Proof.
  intros He Hn Hfe Hfn Hoe Hon Hshape.
  pose proof (s_onset_result self) as E.
  rewrite He, Hn in E. cbn [attribute bind] in E.
  rewrite Hfe in E. cbn [bind] in E. rewrite Hfn in E. cbn [bind] in E.
  rewrite Hoe, Hon in E. cbn [bind] in E.
  rewrite (rms_combine_same_shape e n Hshape) in E.
  eexists. split; [exact E |].
  split; [apply combined_rows_shape; exact Hshape |].
  split; [| exact rms_finite].
  intros c i Hc Hi. apply nth_combined_rows; assumption.
Qed.
End Combination.

(** Both horizontal components silent for three samples, default
    configuration at 50 Hz. *)
Lemma s_onset_root_mean_square_witness :
  exists out,
    fst (s_onset (L := reference_lib)
           (set_signals (init (B := no_base_attributes) 50) None (Some [[0; 0; 0]]) (Some [[0; 0; 0]])))
    = Ok out
    /\ nth 1 (nth 0 out []) None = rms (Some 0) (Some 0).
Proof.
  assert (Ho : forall stw ltw : Z,
             onset (L := reference_lib) [[0; 0; 0]] stw ltw false
             = Ok [[Some 0; Some 0; Some 0]]).
  { intros stw ltw. rewrite onset_rows. cbn [for_each].
    rewrite onset_row_bypassed by exact (np_sum_zeros 3). reflexivity. }
  destruct reference_filter_silence as [_ Hf].
  destruct (s_onset_root_mean_square (L := reference_lib)
              (set_signals (init (B := no_base_attributes) 50) None (Some [[0; 0; 0]])
                 (Some [[0; 0; 0]]))
              [[0; 0; 0]] [[0; 0; 0]] [[0; 0; 0]] [[0; 0; 0]]
              [[Some 0; Some 0; Some 0]] [[Some 0; Some 0; Some 0]])
    as (out & E & _ & Hv & _);
    try reflexivity; try exact Hf; try apply Ho.
  { repeat constructor. }
  exists out. split; [exact E |].
  apply (Hv 0%nat 1%nat); simpl; lia.
Defined.

(** The trace 0, 1, -1, 0 through the reference routines: backwards it
    becomes 1, 1, 1, 0 read from the end, forwards 1, 1, -2, -1. *)
Lemma reference_filter_row_0110 :
  filter_row (L := reference_lib) [1; 0; -1] [1] [0; 1; -1; 0]
  = Ok [1; 1; -2; -1].
Proof.
  unfold filter_row. cbn -[Rminus Rmult Rplus Rdiv Req_dec_T IZR].
  destruct (Req_dec_T 1 0) as [H | _]; [lra |].
  cbn -[Rminus Rmult Rplus Rdiv Req_dec_T IZR].
  repeat f_equal; field.
Qed.

Lemma csum_filtered_0110 :
  csum [1; 1; -2; -1] (-1) = 0 /\ csum [1; 1; -2; -1] 1 = 2
  /\ csum [1; 1; -2; -1] 2 = 6.
Proof. unfold csum; simpl; repeat split; lra. Qed.

Lemma ratio_filtered_0110 :
  exists ratio,
    sta_lta_centred [1; 1; -2; -1] 1 2 = Ok ratio
    /\ length ratio = 4%nat
    /\ nth 1 ratio None = Some 4.
Proof.
  destruct (sta_lta_centred_nth [1; 1; -2; -1] 1 2)
    as (_ & _ & ratio & _ & _ & E & Hlen & _); try lia.
  exists ratio. split; [exact E |]. split; [exact Hlen |].
  rewrite (centred_ratio_interior [1; 1; -2; -1] 1 2 ratio 1)
    by (try exact E; simpl; lia).
  destruct csum_filtered_0110 as (Hm1 & H1 & H2).
  rewrite guarded_ratio_finite.
  unfold sta_after, lta_upto. simpl Z.of_nat. simpl Z.add. simpl Z.sub.
  rewrite Hm1, H1, H2. pose proof dtiny_small.
  destruct (Rlt_dec ((2 - 0) / 2) dtiny); [lra |].
  f_equal. field.
Qed.

Lemma window_samples_half : window_samples (5 / 100) 10 = 1%Z.
Proof.
  unfold window_samples. rewrite (py_int_bounds _ 0); [reflexivity | lra | lra].
Qed.

Lemma window_samples_one : window_samples (1 / 10) 10 = 2%Z.
Proof.
  unfold window_samples. rewrite (py_int_bounds _ 1); [reflexivity | lra | lra].
Qed.

(** ** Silent channels *)

Lemma nth_error_zip {A B C : Type} (f : A * B -> C) (l : list A) (m : list B)
  (c : nat) (x : A) (y : B) :
  nth_error l c = Some x -> nth_error m c = Some y ->
  nth_error (map f (combine l m)) c = Some (f (x, y)).
Proof.
  revert l m. induction c as [| c IH]; intros [| x0 l] [| y0 m] Hx Hy;
    simpl in *; try discriminate.
  - injection Hx as <-. injection Hy as <-. reflexivity.
  - apply IH; assumption.
Qed.

Lemma rms_zero : rms (Some 0) (Some 0) = Some 0.
Proof.
  rewrite rms_finite. f_equal.
  replace ((0 * 0 + 0 * 0) / 2) with 0 by field. apply sqrt_0.
Qed.

Lemma rms_zero_rows (n : nat) :
  map (fun q : float * float => rms (fst q) (snd q))
      (combine (repeat (Some 0) n) (repeat (Some 0) n))
  = repeat (Some 0) n.
Proof.
  induction n as [| n IH]; [reflexivity |].
  simpl. rewrite IH. f_equal. apply rms_zero.
Qed.

Section SilentChannels.
Context {L : SignalLib}.

(** The row of a channel whose samples, as [onset] receives them, sum to
    zero is a row of zeros. *)
Lemma onset_bypasses_zero_sum (fsig : list (list R)) (stw ltw : Z)
  (centred : bool) (out : list (list float)) (c : nat) (frow : list R) :
  onset fsig stw ltw centred = Ok out ->
  nth_error fsig c = Some frow ->
  np_sum frow = 0 ->
  nth_error out c = Some (repeat (Some 0) (length frow)).
Proof.
  intros E Hc Hz. rewrite onset_rows in E.
  destruct (for_each_nth_error _ _ _ _ _ E Hc) as (orow & Ho & Eo).
  cbv beta in Eo. rewrite onset_row_bypassed in Eo by exact Hz.
  injection Eo as <-. exact Ho.
Qed.

(** Up to its first call of [lfilter], [filter_row] leaves a trace of
    zeros as it is. *)
Lemma filter_row_zeros_unfold (b1 a1 : list R) (n : nat) :
  (0 < n)%nat ->
  length (cosine_taper n (1 / 10)) = n ->
  filter_row b1 a1 (repeat 0 n)
  = (back <- library_call (lfilter b1 a1 (repeat 0 n)) ;;
     row <- assign_row n (rev back) ;;
     forth <- library_call (lfilter b1 a1 row) ;;
     assign_row n forth).
Proof.
  intros Hn Htap. unfold filter_row.
  assert (H0 : match repeat 0 n with
               | [] => Raise IndexError
               | x :: _ => Ok x
               end = Ok 0).
  { destruct n; [lia | reflexivity]. }
  rewrite H0. cbn [bind].
  rewrite zeros_minus_first, repeat_length.
  rewrite broadcast_same_length by (rewrite repeat_length; congruence).
  cbn [bind]. rewrite zeros_times by exact Htap.
  rewrite <- (repeat_length 0 n) at 1. rewrite assign_row_same_length.
  cbn [bind]. rewrite rev_zeros. reflexivity.
Qed.

Lemma filter_row_zeros_inv (b1 a1 : list R) (n : nat) (y : list R) :
  (forall b a z, lfilter b a (repeat 0 n) = Some z -> z = repeat 0 n) ->
  length (cosine_taper n (1 / 10)) = n ->
  filter_row b1 a1 (repeat 0 n) = Ok y ->
  y = repeat 0 n.
Proof.
  intros Hl Htap E.
  destruct n as [| n]; [discriminate |].
  destruct (lfilter b1 a1 (repeat 0 (S n))) as [z |] eqn:Ez.
  - pose proof (Hl _ _ _ Ez) as ->.
    rewrite filter_row_silent in E; [| lia | exact Htap | exact Ez].
    injection E as <-. reflexivity.
  - rewrite filter_row_zeros_unfold in E; [| lia | exact Htap].
    rewrite Ez in E. discriminate.
Qed.

(** A silent channel stays silent through [filter]. *)
Lemma filter_keeps_silence (raw fsig : list (list R)) (rate : Z)
  (lc hc : R) (order : Z) (c n : nat) :
  (forall b a z, lfilter b a (repeat 0 n) = Some z -> z = repeat 0 n) ->
  length (cosine_taper n (1 / 10)) = n ->
  filter raw rate lc hc order = Ok fsig ->
  nth_error raw c = Some (repeat 0 n) ->
  nth_error fsig c = Some (repeat 0 n).
Proof.
  intros Hl Htap E Hc. unfold filter in E.
  destruct (rate =? 0)%Z; [discriminate |].
  destruct (butter order (2 * lc / IZR rate) (2 * hc / IZR rate))
    as [[b1 a1] |]; [| discriminate].
  cbn [library_call bind] in E.
  destruct (for_each_nth_error _ _ _ _ _ E Hc) as (y & Hy & Ey).
  rewrite (filter_row_zeros_inv b1 a1 n y Hl Htap Ey) in Hy. exact Hy.
Qed.

Lemma onset_of_component_inv (self : ClassicSTALTAOnset) (bp : R * R * Z)
  (win : R * R) (raw fsig : list (list R)) (o : list (list float)) :
  onset_of_component self bp win raw = Ok (fsig, o) ->
  filter raw (sampling_rate self) (fst (fst bp)) (snd (fst bp)) (snd bp)
  = Ok fsig
  /\ onset fsig (window_samples (fst win) (sampling_rate self))
           (window_samples (snd win) (sampling_rate self))
           (onset_centred self) = Ok o.
Proof.
  unfold onset_of_component. intros E.
  destruct (filter raw _ _ _ _) as [f |] eqn:Ef; [| discriminate].
  cbn [bind] in E.
  destruct (onset f _ _ _) as [o' |] eqn:Eo; [| discriminate].
  cbn [bind] in E. injection E as <- <-. split; [reflexivity | exact Eo].
Qed.

Lemma p_onset_returns (self : ClassicSTALTAOnset) (z fz : list (list R)) :
  sigz self = Some z ->
  filter z (sampling_rate self) (fst (fst (p_bp_filter self)))
         (snd (fst (p_bp_filter self))) (snd (p_bp_filter self)) = Ok fz ->
  p_onset self
  = (onset fz (window_samples (fst (p_onset_win self)) (sampling_rate self))
           (window_samples (snd (p_onset_win self)) (sampling_rate self))
           (onset_centred self),
     set_filt_sigz self fz).
Proof.
  intros Hz Hf. unfold p_onset.
  destruct (p_onset_win self) as [st lt].
  destruct (p_bp_filter self) as [[lc hc] ord_].
  cbn [fst snd] in *. rewrite Hz, Hf. reflexivity.
Qed.

End SilentChannels.

Section SilentChannelClaim.
Context {L : SignalLib}.

(** C3, as amended.  The test for a silent channel is made by [onset], on
    the trace it receives, which is the filtered one: a channel whose
    filtered samples sum to exactly zero gets an all-zero onset row, with
    no STA/LTA computed for it.  [filter] is applied to every channel.
    When [lfilter] answers a trace of zeros with a trace of zeros and the
    taper has the length of the trace, a channel that is all zero before
    the filter is all zero after it, its row of [p_onset] is all zero,
    and so is its row of [s_onset] when it is all zero in both
    horizontal components. *)
Theorem silent_channel_onset (self : ClassicSTALTAOnset) (c n : nat) :
  (forall b a z, lfilter b a (repeat 0 n) = Some z -> z = repeat 0 n) ->
  length (cosine_taper n (1 / 10)) = n ->
  (forall z fz oz,
      sigz self = Some z ->
      onset_of_component self (p_bp_filter self) (p_onset_win self) z
      = Ok (fz, oz) ->
      nth_error z c = Some (repeat 0 n) ->
      p_onset self = (Ok oz, set_filt_sigz self fz)
      /\ nth_error fz c = Some (repeat 0 n)
      /\ nth_error oz c = Some (repeat (Some 0) n))
  /\ (forall e n' fe fn oe on,
         sige self = Some e ->
         sign self = Some n' ->
         onset_of_component self (s_bp_filter self) (s_onset_win self) e
         = Ok (fe, oe) ->
         onset_of_component self (s_bp_filter self) (s_onset_win self) n'
         = Ok (fn, on) ->
         same_shape oe on ->
         nth_error e c = Some (repeat 0 n) ->
         nth_error n' c = Some (repeat 0 n) ->
         exists out,
           fst (s_onset self) = Ok out
           /\ nth_error out c = Some (repeat (Some 0) n))
  /\ (forall fsig stw ltw centred out c' frow,
         onset fsig stw ltw centred = Ok out ->
         nth_error fsig c' = Some frow ->
         np_sum frow = 0 ->
         nth_error out c' = Some (repeat (Some 0) (length frow))).
Proof.
  intros Hl Htap. split; [| split].
  - intros z fz oz Hz E Hc.
    apply onset_of_component_inv in E. destruct E as [Ef Eo].
    pose proof (filter_keeps_silence _ _ _ _ _ _ _ _ Hl Htap Ef Hc) as Hfz.
    split; [rewrite (p_onset_returns self z fz Hz Ef), Eo; reflexivity |].
    split; [exact Hfz |].
    pose proof (onset_bypasses_zero_sum _ _ _ _ _ _ _ Eo Hfz
                  (np_sum_zeros n)) as H.
    rewrite repeat_length in H. exact H.
  - intros e n' fe fn oe on He Hn Ee En Hshape Hce Hcn.
    apply onset_of_component_inv in Ee. destruct Ee as [Efe Eoe].
    apply onset_of_component_inv in En. destruct En as [Efn Eon].
    pose proof (filter_keeps_silence _ _ _ _ _ _ _ _ Hl Htap Efe Hce) as Hfe.
    pose proof (filter_keeps_silence _ _ _ _ _ _ _ _ Hl Htap Efn Hcn) as Hfn.
    pose proof (onset_bypasses_zero_sum _ _ _ _ _ _ _ Eoe Hfe
                  (np_sum_zeros n)) as Hoe.
    pose proof (onset_bypasses_zero_sum _ _ _ _ _ _ _ Eon Hfn
                  (np_sum_zeros n)) as Hon.
    rewrite repeat_length in Hoe, Hon.
    pose proof (s_onset_result self) as E.
    rewrite He, Hn in E. cbn [attribute bind] in E.
    rewrite Efe in E. cbn [bind] in E. rewrite Efn in E. cbn [bind] in E.
    rewrite Eoe, Eon in E. cbn [bind] in E.
    rewrite (rms_combine_same_shape oe on Hshape) in E.
    eexists. split; [exact E |].
    rewrite (nth_error_zip _ _ _ _ _ _ Hoe Hon). cbn [fst snd].
    rewrite rms_zero_rows. reflexivity.
  - intros fsig stw ltw centred out c' frow.
    apply onset_bypasses_zero_sum.
Qed.

End SilentChannelClaim.

Lemma direct_lfilter_zeros_inv (b a z : list R) (n : nat) :
  direct_lfilter b a (repeat 0 n) = Some z -> z = repeat 0 n.
Proof.
  unfold direct_lfilter. destruct a as [| a0 a]; [discriminate |].
  destruct (Req_dec_T a0 0); [discriminate |].
  rewrite difference_equation_zeros by constructor.
  intros E. injection E as <-. reflexivity.
Qed.

Lemma reference_onset_silence (stw ltw : Z) (centred : bool) :
  onset (L := reference_lib) [[0; 0; 0]] stw ltw centred
  = Ok [[Some 0; Some 0; Some 0]].
Proof.
  rewrite onset_rows. cbn [for_each].
  rewrite onset_row_bypassed by exact (np_sum_zeros 3). reflexivity.
Qed.

(** The silent instance: the three components are zero for three samples,
    and so are the rows of [p_onset] and of [s_onset]. *)
Lemma silent_channel_onset_witness :
  p_onset (L := reference_lib) silent_instance
  = (Ok [[Some 0; Some 0; Some 0]], set_filt_sigz silent_instance [[0; 0; 0]])
  /\ exists out,
       fst (s_onset (L := reference_lib) silent_instance) = Ok out
       /\ nth_error out 0 = Some [Some 0; Some 0; Some 0].
Proof.
  destruct reference_filter_silence as [Hp Hs].
  destruct (silent_channel_onset (L := reference_lib) silent_instance 0 3)
    as (HP & HS & _).
  - intros b a z. apply direct_lfilter_zeros_inv.
  - apply repeat_length.
  - split.
    + apply (HP [[0; 0; 0]] [[0; 0; 0]] [[Some 0; Some 0; Some 0]]);
        [reflexivity | | reflexivity].
      unfold onset_of_component. cbn [silent_instance set_signals init
        sampling_rate p_bp_filter p_onset_win onset_centred fst snd].
      rewrite Hp. cbn [bind]. rewrite reference_onset_silence. reflexivity.
    + apply (HS [[0; 0; 0]] [[0; 0; 0]] [[0; 0; 0]] [[0; 0; 0]]
                [[Some 0; Some 0; Some 0]] [[Some 0; Some 0; Some 0]]);
        try reflexivity; try (repeat constructor).
      * unfold onset_of_component. cbn [silent_instance set_signals init
          sampling_rate s_bp_filter s_onset_win onset_centred fst snd].
        rewrite Hs. cbn [bind]. rewrite reference_onset_silence. reflexivity.
      * unfold onset_of_component. cbn [silent_instance set_signals init
          sampling_rate s_bp_filter s_onset_win onset_centred fst snd].
        rewrite Hs. cbn [bind]. rewrite reference_onset_silence. reflexivity.
Defined.

Lemma reference_filter_0110 :
  filter (L := reference_lib) [[0; 1; -1; 0]] 10 1 2 1 = Ok [[1; 1; -2; -1]].
Proof.
  unfold filter. cbn [Z.eqb butter reference_lib].
  rewrite two_tap_design_in_range by lra. cbn [library_call bind for_each].
  rewrite reference_filter_row_0110. reflexivity.
Qed.

(** C3, as stated, fails: the samples 0, 1, -1, 0 of the vertical trace of
    [short_window_instance] sum to zero, yet the trace is filtered, to 1, 1,
    -2, -1, the STA/LTA ratio of the filtered trace is computed, and the
    onset row of [p_onset] holds ln 5 at index 1. *)
Lemma raw_zero_sum_channel_not_bypassed :
  sigz short_window_instance = Some [[0; 1; -1; 0]]
  /\ np_sum [0; 1; -1; 0] = 0
  /\ exists out,
       p_onset (L := reference_lib) short_window_instance
       = (Ok out, set_filt_sigz short_window_instance [[1; 1; -2; -1]])
       /\ nth 1 (nth 0 out []) None = Some (ln 5)
       /\ nth 1 (nth 0 out []) None <> Some 0.
Proof.
  split; [reflexivity |]. split; [unfold np_sum; simpl; lra |].
  destruct ratio_filtered_0110 as (ratio & E & Hlen & H1).
  assert (Hsum : np_sum [1; 1; -2; -1] <> 0) by (unfold np_sum; simpl; lra).
  destruct (onset_row_centred (L := reference_lib) [1; 1; -2; -1] 1 2)
    as (ratio' & E' & _ & Eo); try lia; try exact Hsum.
  rewrite E in E'. injection E' as <-.
  assert (Hv : nth 1 (map onset_value ratio) None = Some (ln 5)).
  { rewrite (nth_map_in onset_value ratio 1 None None) by lia.
    rewrite H1, onset_value_finite. do 2 f_equal.
    rewrite Rmax_left by lra. lra. }
  exists [map onset_value ratio]. split.
  - rewrite (p_onset_returns (L := reference_lib) short_window_instance
               [[0; 1; -1; 0]] [[1; 1; -2; -1]]);
      [| reflexivity | exact reference_filter_0110].
    cbn [short_window_instance configure set_signals centred_init
         set_onset_centred init sampling_rate p_onset_win onset_centred
         fst snd].
    rewrite window_samples_half, window_samples_one, onset_rows.
    cbn [for_each]. rewrite Eo. reflexivity.
  - change (nth 0 [map onset_value ratio] []) with (map onset_value ratio).
    split; [exact Hv |]. rewrite Hv. intros N. injection N as N.
    assert (0 < ln 5) by (rewrite <- ln_1; apply ln_increasing; lra). lra.
Qed.

(** ** [filter] and invalid specifications *)

Lemma bind_never_raises {A B : Type} (m : result A) (k : A -> result B)
  (e : exn) :
  m <> Raise e -> (forall a, k a <> Raise e) -> bind m k <> Raise e.
Proof.
  intros Hm Hk. destruct m as [a | e']; simpl; [apply Hk |].
  intros N. apply Hm. injection N as ->. reflexivity.
Qed.

Lemma for_each_never_raises {A B : Type} (f : A -> result B) (l : list A)
  (e : exn) :
  (forall x, f x <> Raise e) -> for_each f l <> Raise e.
Proof.
  intros Hf. induction l as [| x l IH]; simpl; [discriminate |].
  apply bind_never_raises; [apply Hf |]. intros y.
  apply bind_never_raises; [exact IH | discriminate].
Qed.

Lemma broadcast_raises_ValueError {A B C : Type} (f : A -> B -> C)
  (l : list A) (m : list B) (e : exn) :
  broadcast f l m = Raise e -> e = ValueError.
Proof.
  unfold broadcast. destruct (length l =? length m)%nat; [discriminate |].
  destruct l as [| x [| x' l]]; destruct m as [| y [| y' m]];
    try discriminate; intros E; injection E as <-; reflexivity.
Qed.

Lemma assign_row_raises_ValueError {A : Type} (n : nat) (v : list A)
  (e : exn) :
  assign_row n v = Raise e -> e = ValueError.
Proof.
  unfold assign_row. destruct (length v =? n)%nat; [discriminate |].
  destruct v as [| x [| x' v]]; try discriminate;
    intros E; injection E as <-; reflexivity.
Qed.

Lemma library_call_raises_LibraryError {A : Type} (r : option A) (e : exn) :
  library_call r = Raise e -> e = LibraryError.
Proof.
  destruct r; simpl; [discriminate |]. intros E. injection E as <-.
  reflexivity.
Qed.

Section FilterValidation.
Context {L : SignalLib}.

Lemma filter_row_never_invalid_spec (b1 a1 row : list R) :
  filter_row b1 a1 row <> Raise InvalidFilterSpec.
Proof.
  unfold filter_row.
  repeat (apply bind_never_raises; [| intros ?]);
    try (intros N; apply broadcast_raises_ValueError in N; discriminate);
    try (intros N; apply assign_row_raises_ValueError in N; discriminate);
    try (intros N; apply library_call_raises_LibraryError in N;
         discriminate).
  destruct row; discriminate.
Qed.

(** [filter] hands the specification to the design routine as it is. *)
Lemma filter_hands_over (sig : list (list R)) (rate : Z) (lc hc : R)
  (order : Z) :
  filter sig rate lc hc order
  = (if (rate =? 0)%Z then Raise ZeroDivisionError
     else match butter order (2 * lc / IZR rate) (2 * hc / IZR rate) with
          | None => Raise LibraryError
          | Some (b1, a1) => for_each (filter_row b1 a1) sig
          end).
Proof.
  unfold filter. destruct (rate =? 0)%Z; [reflexivity |].
  destruct (butter order (2 * lc / IZR rate) (2 * hc / IZR rate))
    as [[b1 a1] |]; reflexivity.
Qed.

Lemma filter_never_invalid_spec (sig : list (list R)) (rate : Z)
  (lc hc : R) (order : Z) :
  filter sig rate lc hc order <> Raise InvalidFilterSpec.
Proof.
  rewrite filter_hands_over. destruct (rate =? 0)%Z; [discriminate |].
  destruct (butter order (2 * lc / IZR rate) (2 * hc / IZR rate))
    as [[b1 a1] |]; [| discriminate].
  apply for_each_never_raises. intros row.
  apply filter_row_never_invalid_spec.
Qed.

(** C9, as amended.  [filter] does not examine the specification it is
    given.  For an invalid specification, as for any other, it hands the
    order and the corners 2 * lc / sampling_rate and 2 * hc /
    sampling_rate to the design routine: when that routine raises, its
    error reaches the caller; when it returns coefficients, the channels
    are filtered with them.  No [InvalidFilterSpec] is reported. *)
Theorem filter_does_not_validate (sig : list (list R)) (rate : Z)
  (lc hc : R) (order : Z) :
  invalid_filter_spec rate lc hc order ->
  rate <> 0%Z ->
  filter sig rate lc hc order <> Raise InvalidFilterSpec
  /\ (butter order (2 * lc / IZR rate) (2 * hc / IZR rate) = None ->
      filter sig rate lc hc order = Raise LibraryError)
  /\ (forall b1 a1,
         butter order (2 * lc / IZR rate) (2 * hc / IZR rate)
         = Some (b1, a1) ->
         filter sig rate lc hc order = for_each (filter_row b1 a1) sig).
Proof.
  intros _ Hr. split; [apply filter_never_invalid_spec |].
  rewrite filter_hands_over.
  destruct (Z.eqb_spec rate 0) as [E | _]; [contradiction |].
  split.
  - intros ->. reflexivity.
  - intros b1 a1 ->. reflexivity.
Qed.
End FilterValidation.

Lemma two_tap_design_above_nyquist (order : Z) (w1 w2 : R) :
  1 <= w2 -> two_tap_design order w1 w2 = None.
Proof.
  intros H. unfold two_tap_design.
  destruct (Rlt_dec 0 w1); [| reflexivity].
  destruct (Rlt_dec w1 1); [| reflexivity].
  destruct (Rlt_dec 0 w2); [| reflexivity].
  destruct (Rlt_dec w2 1); [lra | reflexivity].
Qed.

(** A high corner of 30 Hz at 50 Hz, above the Nyquist frequency of 25 Hz:
    the error of the design routine reaches the caller. *)
Lemma filter_does_not_validate_witness :
  invalid_filter_spec 50 2 30 2
  /\ filter (L := reference_lib) [[0; 0; 0]] 50 2 30 2 = Raise LibraryError.
Proof.
  assert (Hi : invalid_filter_spec 50 2 30 2) by (left; lra).
  split; [exact Hi |].
  destruct (filter_does_not_validate (L := reference_lib)
              [[0; 0; 0]] 50 2 30 2 Hi) as (_ & Hnone & _); [lia |].
  apply Hnone. apply two_tap_design_above_nyquist. lra.
Defined.

(** C9, as stated, fails: for a high corner of 30 Hz at 50 Hz no choice of
    the library routines makes [filter] report [InvalidFilterSpec], and
    with a design routine that rejects the corner it is the error of that
    routine that the caller sees. *)
Lemma invalid_spec_is_not_reported :
  invalid_filter_spec 50 2 30 2
  /\ ~ (exists L : SignalLib,
          filter (L := L) [[0; 0; 0]] 50 2 30 2 = Raise InvalidFilterSpec)
  /\ filter (L := reference_lib) [[0; 0; 0]] 50 2 30 2 = Raise LibraryError.
Proof.
  split; [left; lra |]. split.
  - intros (L & E). exact (filter_never_invalid_spec (L := L) _ _ _ _ _ E).
  - rewrite filter_hands_over. cbn [Z.eqb butter reference_lib].
    rewrite two_tap_design_above_nyquist by lra. reflexivity.
Qed.

(** * Further properties *)

(** ** The cumulative sum as the energy of a window *)

Lemma fold_left_Rplus_from (l : list R) (acc : R) :
  fold_left Rplus l acc = acc + np_sum l.
Proof.
  unfold np_sum. revert acc. induction l as [| x l IH]; intros acc; simpl.
  - ring.
  - rewrite IH, (IH (0 + x)). ring.
Qed.

Lemma np_sum_app (l l' : list R) : np_sum (l ++ l') = np_sum l + np_sum l'.
Proof.
  unfold np_sum at 1. rewrite fold_left_app, fold_left_Rplus_from.
  reflexivity.
Qed.

Lemma np_sum_squares_nonneg (l : list R) :
  0 <= np_sum (map (fun x => x ^ 2) l).
Proof.
  induction l as [| x l IH]; [unfold np_sum; simpl; lra |].
  change (map (fun x => x ^ 2) (x :: l))
    with ([x ^ 2] ++ map (fun x => x ^ 2) l).
  rewrite np_sum_app. unfold np_sum at 1. simpl.
  pose proof (pow2_ge_0 x). simpl in *. lra.
Qed.

Lemma firstn_plus {A : Type} (n m : nat) (l : list A) :
  firstn (n + m) l = firstn n l ++ firstn m (skipn n l).
Proof.
  rewrite <- (firstn_skipn n (firstn (n + m) l)).
  rewrite firstn_firstn, Nat.min_l by lia.
  rewrite firstn_skipn_comm. reflexivity.
Qed.

Lemma cumsum_from_nth (acc : R) (l : list R) (j : nat) :
  (j < length l)%nat ->
  nth j (cumsum_from acc l) 0 = acc + np_sum (firstn (S j) l).
Proof.
  revert acc j. induction l as [| x l IH]; intros acc j Hj;
    [simpl in Hj; lia |].
  destruct j as [| j].
  - simpl. unfold np_sum. simpl. ring.
  - simpl in Hj. cbn [cumsum_from nth]. rewrite IH by lia.
    change (firstn (S (S j)) (x :: l)) with ([x] ++ firstn (S j) l).
    rewrite np_sum_app. unfold np_sum at 2. simpl. ring.
Qed.

(** [csum[j]] is the energy of the samples 0 to [j]. *)
Lemma csum_energy (a : list R) (j : nat) :
  (j < length a)%nat ->
  csum a (Z.of_nat j) = np_sum (map (fun x => x ^ 2) (firstn (S j) a)).
Proof.
  intros Hj. rewrite <- csum_nth. unfold cumsum.
  rewrite cumsum_from_nth by (rewrite length_map; exact Hj).
  rewrite firstn_map. ring.
Qed.

(** The difference of two values of the cumulative sum is the energy of
    the samples between them. *)
Lemma csum_window (a : list R) (i : Z) (k : nat) :
  (-1 <= i)%Z -> (0 < k)%nat -> (Z.to_nat (i + 1) + k <= length a)%nat ->
  csum a (i + Z.of_nat k) - csum a i
  = np_sum (map (fun x => x ^ 2) (firstn k (skipn (Z.to_nat (i + 1)) a))).
Proof.
  intros Hi Hk Hn.
  replace (i + Z.of_nat k)%Z with (Z.of_nat (Z.to_nat (i + 1) + k - 1))
    by lia.
  rewrite csum_energy by lia.
  replace (S (Z.to_nat (i + 1) + k - 1)) with (Z.to_nat (i + 1) + k)%nat
    by lia.
  rewrite firstn_plus, map_app, np_sum_app.
  destruct (Z.eq_dec i (-1)) as [-> | Hne].
  - rewrite csum_before by lia. simpl. unfold np_sum at 1. simpl. ring.
  - replace i with (Z.of_nat (Z.to_nat (i + 1) - 1)) at 3 by lia.
    rewrite csum_energy by lia.
    replace (S (Z.to_nat (i + 1) - 1)) with (Z.to_nat (i + 1)) by lia.
    ring.
Qed.

Lemma csum_window_nonneg (a : list R) (i : Z) (k : nat) :
  (-1 <= i)%Z -> (0 < k)%nat -> (Z.to_nat (i + 1) + k <= length a)%nat ->
  0 <= csum a (i + Z.of_nat k) - csum a i.
Proof.
  intros Hi Hk Hn. rewrite csum_window by assumption.
  apply np_sum_squares_nonneg.
Qed.

Lemma csum_nonneg (a : list R) (j : nat) :
  (j < length a)%nat -> 0 <= csum a (Z.of_nat j).
Proof.
  intros Hj. rewrite csum_energy by exact Hj. apply np_sum_squares_nonneg.
Qed.

Lemma sta_after_nonneg (a : list R) (nsta : Z) (i : nat) :
  (0 < nsta)%Z -> (i + Z.to_nat nsta < length a)%nat ->
  0 <= sta_after a nsta (Z.of_nat i).
Proof.
  intros Hs Hi. unfold sta_after.
  pose proof (csum_window_nonneg a (Z.of_nat i) (Z.to_nat nsta)) as H.
  rewrite Z2Nat.id in H by lia.
  assert (0 < IZR nsta) by (apply IZR_lt; lia).
  apply Rmult_le_pos; [apply H; lia |].
  apply Rlt_le, Rinv_0_lt_compat. assumption.
Qed.

Lemma lta_upto_nonneg (a : list R) (nlta : Z) (i : nat) :
  (0 < nlta)%Z -> (i < length a)%nat ->
  0 <= lta_upto a nlta (Z.of_nat i).
Proof.
  intros HL Hi. unfold lta_upto.
  assert (0 < IZR nlta) by (apply IZR_lt; lia).
  assert (0 <= csum a (Z.of_nat i) - csum a (Z.of_nat i - nlta)).
  { destruct (Z_lt_le_dec (Z.of_nat i - nlta) (-1)) as [Hlt | Hge].
    - rewrite (csum_before a (Z.of_nat i - nlta)) by lia.
      pose proof (csum_nonneg a i Hi). lra.
    - pose proof (csum_window_nonneg a (Z.of_nat i - nlta) (Z.to_nat nlta))
        as Hw.
      rewrite Z2Nat.id in Hw by lia.
      replace (Z.of_nat i - nlta + nlta)%Z with (Z.of_nat i) in Hw by lia.
      apply Hw; lia. }
  apply Rmult_le_pos; [assumption |].
  apply Rlt_le, Rinv_0_lt_compat. assumption.
Qed.

(** ** More on [sta_lta_centred] *)

(** The ratio at any sample: a guarded quotient whose numerator is not
    negative, and is zero outside the interior of the trace. *)
Lemma centred_ratio_sample (a : list R) (nsta nlta : Z) (ratio : list float)
  (i : nat) :
  (0 < nsta)%Z -> (0 < nlta)%Z ->
  sta_lta_centred a nsta nlta = Ok ratio ->
  (i < length a)%nat ->
  exists s,
    nth i ratio None = guarded_ratio s (lta_upto a nlta (Z.of_nat i))
    /\ 0 <= s
    /\ ((length a - Z.to_nat nsta <= i)%nat \/ (i < Z.to_nat (nlta - 1))%nat
        -> s = 0).
Proof.
  intros Hs HL E Hi.
  destruct (sta_lta_centred_nth a nsta nlta Hs HL) as
    (sta & lta & ratio' & Es & El & E' & _ & Hnth).
  rewrite E in E'. injection E' as <-.
  destruct (sta_windows_spec a nsta nlta Hs HL) as (sta' & Es' & _ & Hsta).
  destruct (lta_windows_spec a nlta HL) as (lta' & El' & _ & Hlta).
  rewrite Es in Es'. rewrite El in El'.
  injection Es' as <-. injection El' as <-.
  exists (nth i sta 0). rewrite Hnth, Hlta by exact Hi.
  split; [reflexivity |]. rewrite Hsta by exact Hi.
  assert (Hpos : 0 < IZR nsta) by (apply IZR_lt; lia).
  destruct (Nat.leb_spec (length a - Z.to_nat nsta) i) as [H1 | H1];
    [split; [lra | reflexivity] |].
  destruct (Nat.ltb_spec i (Z.to_nat (nlta - 1))) as [H2 | H2];
    [split; [lra | reflexivity] |].
  split; [| intros [H | H]; lia].
  destruct (Nat.leb_spec (Z.to_nat nsta) i) as [H3 | H3].
  - apply sta_after_nonneg; lia.
  - apply Rmult_le_pos; [apply csum_nonneg; exact Hi |].
    apply Rlt_le, Rinv_0_lt_compat. exact Hpos.
Qed.

Lemma guarded_ratio_nonneg (s l : R) :
  0 <= s -> exists r, guarded_ratio s l = Some r /\ 0 <= r.
Proof.
  intros Hs. rewrite guarded_ratio_finite. eexists. split; [reflexivity |].
  pose proof dtiny_pos.
  destruct (Rlt_dec l dtiny) as [Hl | Hl]; [lra |].
  apply Rmult_le_pos; [exact Hs |].
  apply Rlt_le, Rinv_0_lt_compat. lra.
Qed.

(** X1.  For positive window lengths [sta_lta_centred] returns, whatever
    the trace of floats, an array of the length of the trace, and no
    finite entry of it is negative: both averages are differences of a
    running sum of squares. *)
Theorem centred_ratio_nonnegative (a : list R) (nsta nlta : Z) :
  (0 < nsta)%Z -> (0 < nlta)%Z ->
  exists ratio,
    sta_lta_centred a nsta nlta = Ok ratio
    /\ length ratio = length a
    /\ forall i r, nth i ratio None = Some r -> 0 <= r.
Proof.
  intros Hs HL.
  destruct (sta_lta_centred_nth a nsta nlta Hs HL) as
    (_ & _ & ratio & _ & _ & E & Hlen & _).
  exists ratio. split; [exact E |]. split; [exact Hlen |].
  intros i r Hr.
  destruct (Nat.lt_ge_cases i (length a)) as [Hi | Hi].
  - destruct (centred_ratio_sample a nsta nlta ratio i Hs HL E Hi)
      as (s & Hv & Hpos & _).
    destruct (guarded_ratio_nonneg s (lta_upto a nlta (Z.of_nat i)) Hpos)
      as (r' & Hr' & Hr0).
    rewrite Hv, Hr' in Hr. injection Hr as <-. exact Hr0.
  - rewrite nth_overflow in Hr by (rewrite Hlen; exact Hi). discriminate.
Qed.

Lemma centred_ratio_nonnegative_witness :
  exists ratio,
    sta_lta_centred [3; -4; 5] 1 2 = Ok ratio
    /\ length ratio = 3%nat
    /\ forall r, nth 1 ratio None = Some r -> 0 <= r.
Proof.
  destruct (centred_ratio_nonnegative [3; -4; 5] 1 2) as (ratio & E & Hl & H);
    [lia | lia |].
  exists ratio. split; [exact E |]. split; [exact Hl |]. apply H.
Defined.




Section ShortTraces.
Context {L : SignalLib}.

End ShortTraces.


(** ** Degenerate window lengths and traces *)

Lemma norm_index_empty (i : Z) : norm_index 0 i = 0%nat.
Proof. unfold norm_index. destruct (Z.ltb_spec i 0); lia. Qed.

Lemma slice_bounds_empty (i j : option Z) :
  slice_start 0 i = 0%nat /\ slice_stop 0 j = 0%nat.
Proof.
  split; [destruct i | destruct j]; simpl;
    try apply norm_index_empty; reflexivity.
Qed.

Lemma get_slice_nil {A : Type} (i j : option Z) :
  get_slice (@nil A) i j = [].
Proof.
  unfold get_slice. cbn [length].
  destruct (slice_bounds_empty i j) as [-> ->]. reflexivity.
Qed.

Lemma set_slice_nil {A : Type} (i j : option Z) :
  set_slice (@nil A) i j [] = Ok [].
Proof.
  unfold set_slice. cbn [length].
  destruct (slice_bounds_empty i j) as [-> ->]. reflexivity.
Qed.

Lemma fill_slice_nil {A : Type} (i j : option Z) (x : A) :
  fill_slice [] i j x = [].
Proof.
  unfold fill_slice. cbn [length].
  destruct (slice_bounds_empty i j) as [-> ->]. reflexivity.
Qed.

Lemma sta_lta_centred_empty (nsta nlta : Z) :
  sta_lta_centred [] nsta nlta = Ok [].
Proof.
  unfold sta_lta_centred, sta_windows, lta_windows.
  cbn [map cumsum cumsum_from]. rewrite !get_slice_nil.
  cbn [broadcast length Nat.eqb combine map bind].
  rewrite !set_slice_nil. cbn [bind map]. rewrite !get_slice_nil.
  rewrite set_slice_nil. cbn [bind map]. rewrite !fill_slice_nil.
  reflexivity.
Qed.

(** With a window length of 0 the two slices of the subtraction have the
    lengths n and 0: numpy cannot broadcast them, or, for n = 1, cannot
    store the empty difference. *)
Lemma zero_window_raises (c : list R) :
  c <> [] ->
  broadcast Rminus (get_slice c (Some 0%Z) None)
                   (get_slice c None (Some (- 0)%Z)) = Raise ValueError
  \/ (broadcast Rminus (get_slice c (Some 0%Z) None)
                       (get_slice c None (Some (- 0)%Z)) = Ok []
      /\ set_slice c (Some 0%Z) None [] = Raise ValueError).
Proof.
  intros Hc. destruct c as [| x [| y c]]; [contradiction | right | left].
  - split; reflexivity.
  - unfold get_slice, slice_start, slice_stop, norm_index.
    cbn [Z.opp Z.ltb Z.compare Z.to_nat Nat.min length Nat.sub firstn skipn].
    reflexivity.
Qed.

Lemma squares_cumsum_nonempty (a : list R) :
  a <> [] -> cumsum (map (fun x => x ^ 2) a) <> [].
Proof. destruct a; [contradiction | discriminate]. Qed.

(** X4.  A window length of 0 is refused on every trace that has a sample:
    [sta_lta_centred] raises ValueError when nsta is 0, and when nlta is 0
    for a positive nsta.  On the empty trace it returns the empty array for
    all window lengths. *)
Theorem sta_lta_centred_degenerate :
  (forall (a : list R) (nlta : Z),
      a <> [] -> sta_lta_centred a 0 nlta = Raise ValueError)
  /\ (forall (a : list R) (nsta : Z),
         a <> [] -> (0 < nsta)%Z ->
         sta_lta_centred a nsta 0 = Raise ValueError)
  /\ (forall nsta nlta : Z, sta_lta_centred [] nsta nlta = Ok []).
Proof.
  split; [| split].
  - intros a nlta Ha. unfold sta_lta_centred. rewrite !int_round_id.
    unfold sta_windows.
    destruct (zero_window_raises _ (squares_cumsum_nonempty a Ha))
      as [E | [E1 E2]];
      [rewrite E | rewrite E1; cbn [bind]; rewrite E2]; reflexivity.
  - intros a nsta Ha Hs. unfold sta_lta_centred. rewrite !int_round_id.
    destruct (sta_windows_spec a nsta 1) as (sta & Es & _); try lia.
    assert (Es0 : exists sta0, sta_windows a nsta 0 = Ok sta0).
    { unfold sta_windows in *.
      destruct (window_difference (cumsum (map (fun x => x ^ 2) a)) nsta Hs)
        as (d & w & Hd & Hw & _).
      rewrite Hd in *. cbn [bind] in *. rewrite Hw in *. cbn [bind] in *.
      destruct (set_slice w (Some nsta) (Some (- nsta)%Z) _);
        [eexists; reflexivity | discriminate]. }
    destruct Es0 as (sta0 & ->). cbn [bind]. unfold lta_windows.
    destruct (zero_window_raises _ (squares_cumsum_nonempty a Ha))
      as [E | [E1 E2]];
      [rewrite E | rewrite E1; cbn [bind]; rewrite E2]; reflexivity.
  - exact sta_lta_centred_empty.
Qed.

Lemma sta_lta_centred_degenerate_witness :
  sta_lta_centred [1; 2; 3] 0 2 = Raise ValueError
  /\ sta_lta_centred [1; 2; 3] 1 0 = Raise ValueError.
Proof.
  destruct sta_lta_centred_degenerate as (H0 & H1 & _).
  split; [apply H0; discriminate | apply H1; [discriminate | lia]].
Defined.

(** ** Shapes and bounds of the onset *)

Lemma bind_Ok {A B : Type} (m : result A) (k : A -> result B) (y : B) :
  bind m k = Ok y -> exists x, m = Ok x /\ k x = Ok y.
Proof.
  destruct m as [x | e]; simpl; [| discriminate].
  intros E. exists x. split; [reflexivity | exact E].
Qed.

Lemma for_each_Forall2 {A B : Type} (f : A -> result B) (l : list A)
  (ys : list B) :
  for_each f l = Ok ys -> Forall2 (fun x y => f x = Ok y) l ys.
Proof.
  revert ys. induction l as [| x l IH]; intros ys E; simpl in E.
  - injection E as <-. constructor.
  - apply bind_Ok in E. destruct E as (y & Ey & E).
    apply bind_Ok in E. destruct E as (ys' & Eys & E).
    injection E as <-. constructor; [exact Ey | apply IH; exact Eys].
Qed.

Lemma assign_row_length {A : Type} (n : nat) (v r : list A) :
  assign_row n v = Ok r -> length r = n.
Proof.
  unfold assign_row. destruct (Nat.eqb_spec (length v) n) as [H | H].
  - intros E. injection E as <-. exact H.
  - destruct v as [| x [| x' v]]; try discriminate.
    intros E. injection E as <-. apply repeat_length.
Qed.

Lemma ln_le (x y : R) : 0 < x -> x <= y -> ln x <= ln y.
Proof.
  intros Hx [Hlt | ->]; [| lra].
  apply Rlt_le, ln_increasing; assumption.
Qed.

Lemma ln_floor_negative : ln (8 / 10) < 0.
Proof. rewrite <- ln_1. apply ln_increasing; lra. Qed.

Lemma onset_value_floor (x : float) (v : R) :
  onset_value x = Some v -> ln (8 / 10) <= v.
Proof.
  destruct x as [r |]; [| discriminate].
  rewrite onset_value_finite. intros E. injection E as <-.
  apply ln_le; [lra | apply Rmax_r].
Qed.

Lemma onset_value_nonneg (r : R) :
  0 <= r -> exists v, onset_value (Some r) = Some v /\ 0 <= v.
Proof.
  intros Hr. rewrite onset_value_finite. eexists. split; [reflexivity |].
  rewrite Rmax_left by lra. rewrite <- ln_1. apply ln_le; lra.
Qed.

Section OnsetShape.
Context {L : SignalLib}.

Lemma onset_row_cases (row : list R) (stw ltw : Z) (centred : bool)
  (orow : list float) :
  onset_row row stw ltw centred = Ok orow ->
  orow = repeat (Some 0) (length row)
  \/ exists ratio, length ratio = length row /\ orow = map onset_value ratio.
Proof.
  unfold onset_row. destruct (Req_dec_T (np_sum row) 0) as [_ | _].
  - intros E. injection E as <-. left. reflexivity.
  - intros E. apply bind_Ok in E. destruct E as (ratio & _ & E).
    apply bind_Ok in E. destruct E as (r & Er & E).
    injection E as <-. right. exists r.
    split; [apply (assign_row_length _ _ _ Er) |].
    rewrite map_map. reflexivity.
Qed.

Lemma onset_row_length (row : list R) (stw ltw : Z) (centred : bool)
  (orow : list float) :
  onset_row row stw ltw centred = Ok orow -> length orow = length row.
Proof.
  intros E. destruct (onset_row_cases _ _ _ _ _ E) as [-> | (r & Hr & ->)].
  - apply repeat_length.
  - rewrite length_map. exact Hr.
Qed.

Lemma onset_shape (sig : list (list R)) (stw ltw : Z) (centred : bool)
  (out : list (list float)) :
  onset sig stw ltw centred = Ok out -> same_shape out sig.
Proof.
  rewrite onset_rows. intros E. apply for_each_Forall2 in E.
  unfold same_shape. induction E as [| row orow sig out Er _ IH];
    constructor; [| exact IH].
  apply (onset_row_length _ _ _ _ _ Er).
Qed.

(** X5.  In either mode, and whatever the STA/LTA routine returns, [onset]
    keeps the shape of the array it is given, and no finite value of it is
    below ln(0.8), the logarithm of the floor of the clip. *)
Theorem onset_shape_and_floor (sig : list (list R)) (stw ltw : Z)
  (centred : bool) (out : list (list float)) :
  onset sig stw ltw centred = Ok out ->
  same_shape out sig
  /\ forall orow v, In orow out -> In (Some v) orow -> ln (8 / 10) <= v.
Proof.
  intros E. split; [apply (onset_shape _ _ _ _ _ E) |].
  intros orow v Ho Hv. rewrite onset_rows in E.
  apply for_each_Forall2 in E.
  assert (Hrow : exists row, onset_row row stw ltw centred = Ok orow).
  { clear Hv. induction E as [| row orow' sig out Er _ IH];
      [contradiction |].
    destruct Ho as [<- | Ho]; [exists row; exact Er | apply IH; exact Ho]. }
  destruct Hrow as (row & Er).
  destruct (onset_row_cases _ _ _ _ _ Er) as [-> | (r & _ & ->)].
  - apply repeat_spec in Hv. injection Hv as ->.
    pose proof ln_floor_negative. lra.
  - apply in_map_iff in Hv. destruct Hv as (x & Hx & _).
    apply (onset_value_floor x v Hx).
Qed.
End OnsetShape.

Lemma onset_111 :
  exists out, onset (L := reference_lib) [[1; 1; 1]] 1 2 true = Ok out.
Proof.
  assert (Hsum : np_sum [1; 1; 1] <> 0) by (unfold np_sum; simpl; lra).
  destruct (onset_row_centred (L := reference_lib) [1; 1; 1] 1 2)
    as (ratio & _ & _ & Eo); try lia; try exact Hsum.
  eexists. rewrite onset_rows. cbn [for_each]. rewrite Eo. reflexivity.
Qed.

Lemma onset_shape_and_floor_witness :
  exists out,
    onset (L := reference_lib) [[1; 1; 1]] 1 2 true = Ok out
    /\ same_shape out [[1; 1; 1]].
Proof.
  destruct onset_111 as (out & E).
  exists out. split; [exact E |].
  apply (onset_shape_and_floor (L := reference_lib) _ _ _ _ _ E).
Defined.

Lemma centred_ratio_members_nonneg (a : list R) (nsta nlta : Z)
  (ratio : list float) (y : float) :
  (0 < nsta)%Z -> (0 < nlta)%Z ->
  sta_lta_centred a nsta nlta = Ok ratio ->
  In y ratio -> exists r, y = Some r /\ 0 <= r.
Proof.
  intros Hs HL E Hy.
  destruct (sta_lta_centred_nth a nsta nlta Hs HL) as
    (_ & _ & ratio' & _ & _ & E' & Hlen & _).
  rewrite E in E'. injection E' as <-.
  destruct (In_nth _ _ None Hy) as (i & Hi & <-).
  assert (Hi' : (i < length a)%nat) by (rewrite <- Hlen; exact Hi).
  destruct (centred_ratio_sample a nsta nlta ratio i Hs HL E Hi')
    as (s & Hv & Hpos & _).
  destruct (guarded_ratio_nonneg s (lta_upto a nlta (Z.of_nat i)) Hpos)
    as (r & Hr & Hr0).
  exists r. split; [| exact Hr0]. rewrite <- Hr. exact Hv.
Qed.

Section CentredOnset.
Context {L : SignalLib}.

Lemma onset_row_centred_nonneg (row : list R) (stw ltw : Z) :
  (0 < stw)%Z -> (0 < ltw)%Z ->
  exists orow,
    onset_row row stw ltw true = Ok orow
    /\ forall x, In x orow -> exists v, x = Some v /\ 0 <= v.
Proof.
  intros Hs Hl. destruct (Req_dec_T (np_sum row) 0) as [Hz | Hnz].
  - rewrite onset_row_bypassed by exact Hz. eexists. split; [reflexivity |].
    intros x Hx. apply repeat_spec in Hx. subst x.
    exists 0. split; [reflexivity | lra].
  - destruct (onset_row_centred row stw ltw Hs Hl Hnz)
      as (ratio & E & _ & Eo).
    rewrite Eo. eexists. split; [reflexivity |].
    intros x Hx. apply in_map_iff in Hx. destruct Hx as (y & <- & Hy).
    destruct (centred_ratio_members_nonneg _ _ _ _ _ Hs Hl E Hy)
      as (r & -> & Hr).
    apply onset_value_nonneg. exact Hr.
Qed.

Lemma centred_onset_members (sig : list (list R)) (stw ltw : Z) :
  (0 < stw)%Z -> (0 < ltw)%Z ->
  exists out,
    onset sig stw ltw true = Ok out
    /\ forall orow x, In orow out -> In x orow ->
         exists v, x = Some v /\ 0 <= v.
Proof.
  intros Hs Hl. rewrite onset_rows.
  destruct (for_each_total (fun row => onset_row row stw ltw true) sig)
    as (out & E & _).
  { intros row _.
    destruct (onset_row_centred_nonneg row stw ltw Hs Hl) as (orow & Eo & _).
    exists orow. exact Eo. }
  exists out. split; [exact E |].
  intros orow x Ho Hx. apply for_each_Forall2 in E.
  induction E as [| row orow' sig out Er _ IH]; [contradiction |].
  destruct Ho as [<- | Ho]; [| apply IH; exact Ho].
  destruct (onset_row_centred_nonneg row stw ltw Hs Hl) as (orow & Eo & H).
  cbv beta in Er. rewrite Er in Eo. injection Eo as <-. apply H. exact Hx.
Qed.

(** X6.  In centred mode, for positive window lengths, [onset] returns on
    every array of floats an array of the same shape, and no finite value
    of the onset is negative: the ratio is not negative, so that
    1 + ratio never reaches the floor of the clip. *)
Theorem centred_onset_nonnegative (sig : list (list R)) (stw ltw : Z) :
  (0 < stw)%Z -> (0 < ltw)%Z ->
  exists out,
    onset sig stw ltw true = Ok out
    /\ same_shape out sig
    /\ forall orow v, In orow out -> In (Some v) orow -> 0 <= v.
Proof.
  intros Hs Hl.
  destruct (centred_onset_members sig stw ltw Hs Hl) as (out & E & H).
  exists out. split; [exact E |].
  split; [apply (onset_shape _ _ _ _ _ E) |].
  intros orow v Ho Hv.
  destruct (H orow (Some v) Ho Hv) as (v' & Ev & Hv').
  injection Ev as ->. exact Hv'.
Qed.
End CentredOnset.

Lemma centred_onset_nonnegative_witness :
  exists out,
    onset (L := reference_lib) [[3; -4; 5]; [0; 0; 0]] 1 2 true = Ok out
    /\ same_shape out [[3; -4; 5]; [0; 0; 0]]
    /\ forall orow v, In orow out -> In (Some v) orow -> 0 <= v.
Proof.
  apply (centred_onset_nonnegative (L := reference_lib)
           [[3; -4; 5]; [0; 0; 0]] 1 2); lia.
Defined.

(** ** [filter]: shape and edge cases *)

Lemma same_shape_trans {A B C : Type} (x : list (list A)) (y : list (list B))
  (z : list (list C)) :
  same_shape x y -> same_shape y z -> same_shape x z.
Proof.
  unfold same_shape. intros Hxy. revert z.
  induction Hxy as [| rx ry x y Hr _ IH]; intros z Hyz;
    inversion Hyz; subst; constructor; [congruence | apply IH; assumption].
Qed.

Section FilterShape.
Context {L : SignalLib}.

Lemma filter_row_length (b1 a1 row y : list R) :
  filter_row b1 a1 row = Ok y -> length y = length row.
Proof.
  unfold filter_row. intros E.
  repeat (apply bind_Ok in E; destruct E as (? & _ & E)).
  apply (assign_row_length _ _ _ E).
Qed.

Lemma filter_shape (sig fsig : list (list R)) (rate : Z) (lc hc : R)
  (order : Z) :
  filter sig rate lc hc order = Ok fsig -> same_shape fsig sig.
Proof.
  rewrite filter_hands_over. destruct (rate =? 0)%Z; [discriminate |].
  destruct (butter order (2 * lc / IZR rate) (2 * hc / IZR rate))
    as [[b1 a1] |]; [| discriminate].
  intros E. apply for_each_Forall2 in E. unfold same_shape.
  induction E as [| row y sig fsig Er _ IH]; constructor; [| exact IH].
  apply (filter_row_length _ _ _ _ Er).
Qed.

(** X7.  The filtered trace and the onset function of a component, when
    they are computed, both have the shape of the raw trace, in either
    mode and whatever the routines of the library return: the number of
    channels and the number of samples of every channel are kept. *)
Theorem component_keeps_shape (self : ClassicSTALTAOnset) (bp : R * R * Z)
  (win : R * R) (raw fsig : list (list R)) (o : list (list float)) :
  onset_of_component self bp win raw = Ok (fsig, o) ->
  same_shape fsig raw /\ same_shape o raw.
Proof.
  intros E. apply onset_of_component_inv in E. destruct E as [Ef Eo].
  pose proof (filter_shape _ _ _ _ _ _ Ef) as Hf.
  split; [exact Hf |].
  apply (same_shape_trans o fsig raw); [| exact Hf].
  apply (onset_shape _ _ _ _ _ Eo).
Qed.

(** X8.  The edge cases of [filter].  A sampling rate of 0 raises
    ZeroDivisionError before the design routine is called.  When the
    design routine returns coefficients, an array without channels is
    returned as it is, and an array whose first channel has no sample
    raises IndexError, the first sample of a channel being read without a
    test. *)
Theorem filter_edge_cases :
  (forall (sig : list (list R)) (lc hc : R) (order : Z),
      filter sig 0 lc hc order = Raise ZeroDivisionError)
  /\ (forall (rate : Z) (lc hc : R) (order : Z) (b1 a1 : list R),
         rate <> 0%Z ->
         butter order (2 * lc / IZR rate) (2 * hc / IZR rate)
         = Some (b1, a1) ->
         filter [] rate lc hc order = Ok []
         /\ forall sig, filter ([] :: sig) rate lc hc order
                        = Raise IndexError).
Proof.
  split; [reflexivity |].
  intros rate lc hc order b1 a1 Hr Hb. split.
  - rewrite filter_hands_over.
    destruct (Z.eqb_spec rate 0); [contradiction |]. rewrite Hb. reflexivity.
  - intros sig. rewrite filter_hands_over.
    destruct (Z.eqb_spec rate 0); [contradiction |]. rewrite Hb. reflexivity.
Qed.
End FilterShape.

Lemma component_keeps_shape_witness :
  onset_of_component (L := reference_lib) silent_instance
    (p_bp_filter silent_instance) (p_onset_win silent_instance) [[0; 0; 0]]
  = Ok ([[0; 0; 0]], [[Some 0; Some 0; Some 0]])
  /\ same_shape [[Some 0; Some 0; Some 0]] [[0; 0; 0]].
Proof.
  assert (E : onset_of_component (L := reference_lib) silent_instance
                (p_bp_filter silent_instance) (p_onset_win silent_instance)
                [[0; 0; 0]]
              = Ok ([[0; 0; 0]], [[Some 0; Some 0; Some 0]])).
  { unfold onset_of_component. cbn [silent_instance set_signals init
      sampling_rate p_bp_filter p_onset_win onset_centred fst snd].
    destruct reference_filter_silence as [-> _]. cbn [bind].
    rewrite reference_onset_silence. reflexivity. }
  split; [exact E |].
  apply (component_keeps_shape (L := reference_lib) _ _ _ _ _ _ E).
Defined.

Lemma filter_edge_cases_witness :
  filter (L := reference_lib) [] 50 2 16 2 = Ok []
  /\ filter (L := reference_lib) [[]; [1; 2]] 50 2 16 2 = Raise IndexError.
Proof.
  destruct (filter_edge_cases (L := reference_lib)) as (_ & H).
  destruct (H 50%Z 2 16 2%Z [1; 0; -1] [1]) as (H0 & H1);
    [lia | apply two_tap_design_in_range; lra |].
  split; [exact H0 | apply H1].
Defined.

(** ** Channels stuck at a constant value *)

Lemma constant_minus_first (v : R) (n : nat) :
  map (fun x => x - v) (repeat v n) = repeat 0 n.
Proof.
  induction n as [| n IH]; [reflexivity |].
  simpl. rewrite IH. f_equal. ring.
Qed.

Section ConstantChannels.
Context {L : SignalLib}.

(** The first sample is subtracted from the trace: a constant trace is
    filtered as a trace of zeros is. *)
Lemma filter_row_constant (b1 a1 : list R) (v : R) (n : nat) :
  filter_row b1 a1 (repeat v n) = filter_row b1 a1 (repeat 0 n).
Proof.
  destruct n as [| n]; [reflexivity |].
  unfold filter_row. rewrite !repeat_length.
  change (repeat v (S n)) with (v :: repeat v n) at 1.
  change (repeat 0 (S n)) with (0 :: repeat 0 n) at 1.
  cbn [bind].
  change (v :: repeat v n) with (repeat v (S n)).
  change (0 :: repeat 0 n) with (repeat 0 (S n)).
  rewrite constant_minus_first, zeros_minus_first. reflexivity.
Qed.

(** X9.  A channel whose samples all have the same value is treated as a
    silent one.  [filter] subtracts the first sample, so that, when
    [lfilter] answers a trace of zeros with a trace of zeros and the taper
    has the length of the trace, the filtered channel is all zero; its
    samples sum to zero and [onset] gives it an all-zero row, in either
    mode. *)
Theorem constant_channel_is_silent (raw fsig : list (list R))
  (out : list (list float)) (rate : Z) (lc hc : R) (order stw ltw : Z)
  (centred : bool) (c n : nat) (v : R) :
  (forall b a z, lfilter b a (repeat 0 n) = Some z -> z = repeat 0 n) ->
  length (cosine_taper n (1 / 10)) = n ->
  filter raw rate lc hc order = Ok fsig ->
  onset fsig stw ltw centred = Ok out ->
  nth_error raw c = Some (repeat v n) ->
  nth_error fsig c = Some (repeat 0 n)
  /\ nth_error out c = Some (repeat (Some 0) n).
Proof.
  intros Hl Htap Ef Eo Hc.
  assert (Hf : nth_error fsig c = Some (repeat 0 n)).
  { rewrite filter_hands_over in Ef.
    destruct (rate =? 0)%Z; [discriminate |].
    destruct (butter order (2 * lc / IZR rate) (2 * hc / IZR rate))
      as [[b1 a1] |]; [| discriminate].
    destruct (for_each_nth_error _ _ _ _ _ Ef Hc) as (y & Hy & Ey).
    rewrite filter_row_constant in Ey.
    rewrite (filter_row_zeros_inv b1 a1 n y Hl Htap Ey) in Hy. exact Hy. }
  split; [exact Hf |].
  pose proof (onset_bypasses_zero_sum _ _ _ _ _ _ _ Eo Hf (np_sum_zeros n))
    as H.
  rewrite repeat_length in H. exact H.
Qed.
End ConstantChannels.

Lemma reference_filter_constant :
  filter (L := reference_lib) [[7; 7; 7]] 50 2 16 2 = Ok [[0; 0; 0]].
Proof.
  rewrite filter_hands_over. cbn [Z.eqb butter reference_lib].
  rewrite two_tap_design_in_range by lra. cbn [for_each].
  change [7; 7; 7] with (repeat 7 3).
  rewrite (filter_row_constant (L := reference_lib)).
  rewrite (reference_filter_row_silent 3) by lia. reflexivity.
Qed.

(** A vertical trace stuck at 7 for three samples. *)
Lemma constant_channel_is_silent_witness :
  filter (L := reference_lib) [[7; 7; 7]] 50 2 16 2 = Ok [[0; 0; 0]]
  /\ onset (L := reference_lib) [[0; 0; 0]] 11 51 false
     = Ok [[Some 0; Some 0; Some 0]]
  /\ nth_error [[Some 0; Some 0; Some 0]] 0 = Some (repeat (Some 0) 3).
Proof.
  split; [exact reference_filter_constant |].
  split; [apply reference_onset_silence |].
  apply (constant_channel_is_silent (L := reference_lib)
           [[7; 7; 7]] [[0; 0; 0]] [[Some 0; Some 0; Some 0]]
           50 2 16 2 11 51 false 0 3 7).
  - intros b a z. apply direct_lfilter_zeros_inv.
  - apply repeat_length.
  - exact reference_filter_constant.
  - apply reference_onset_silence.
  - reflexivity.
Defined.

(** ** Window lengths and pads *)

Lemma py_int_above (x : R) : x - 1 < IZR (py_int x) /\ IZR (py_int x) < x + 1.
Proof.
  unfold py_int. destruct (Rle_dec 0 x) as [H | H].
  - destruct (base_Int_part x). lra.
  - rewrite opp_IZR. destruct (base_Int_part (- x)). lra.
Qed.

Lemma py_int_nonneg (x : R) :
  0 <= x -> (0 <= py_int x)%Z /\ IZR (py_int x) <= x.
Proof.
  intros H. unfold py_int. destruct (Rle_dec 0 x) as [_ | N]; [| contradiction].
  destruct (base_Int_part x) as [Hle Hgt]. split; [| exact Hle].
  assert (Hlt : IZR (-1) < IZR (Int_part x)) by lra.
  apply lt_IZR in Hlt. lia.
Qed.

Lemma window_samples_positive (seconds : R) (rate : Z) :
  0 <= seconds * IZR rate -> (0 < window_samples seconds rate)%Z.
Proof.
  intros H. unfold window_samples.
  destruct (py_int_nonneg _ H) as [Hz _]. lia.
Qed.

(** X10.  The number of samples of a window exceeds the length of the
    window in samples, seconds * sampling_rate, and by at most 1 when that
    length is not negative; it is then at least 1, so that no window of
    [p_onset] or [s_onset] is empty. *)
Theorem window_samples_bounds (seconds : R) (rate : Z) :
  seconds * IZR rate < IZR (window_samples seconds rate)
  /\ (0 <= seconds * IZR rate ->
      IZR (window_samples seconds rate) <= seconds * IZR rate + 1
      /\ (1 <= window_samples seconds rate)%Z).
Proof.
  unfold window_samples. rewrite plus_IZR.
  destruct (py_int_above (seconds * IZR rate)) as [Hlo Hhi].
  split; [lra |]. intros H0.
  destruct (py_int_nonneg _ H0) as [Hz Hle]. split; [lra | lia].
Qed.

Lemma window_samples_bounds_witness :
  2 / 10 * IZR 50 < IZR (window_samples (2 / 10) 50)
  /\ IZR (window_samples (2 / 10) 50) <= 2 / 10 * IZR 50 + 1
  /\ (1 <= window_samples (2 / 10) 50)%Z.
Proof.
  destruct (window_samples_bounds (2 / 10) 50) as [H1 H2].
  split; [exact H1 |]. apply H2. lra.
Defined.

Lemma np_ceil_bounds (x : R) : x <= np_ceil x < x + 1.
Proof.
  unfold np_ceil. rewrite opp_IZR.
  destruct (base_Int_part (- x)). lra.
Qed.

(** X11.  The post-pad that the setter stores is a whole number of
    seconds, the least one that is not below ttmax + 2 * max(p_long,
    s_long): it covers the maximum travel time and twice each of the two
    long windows, and exceeds their sum by less than a second. *)
Theorem post_pad_covers_travel_time (self : ClassicSTALTAOnset) (ttmax : R) :
  exists k : Z,
    post_pad (post_pad_setter self ttmax) = Ok (IZR k)
    /\ ttmax + 2 * snd (p_onset_win self) <= IZR k
    /\ ttmax + 2 * snd (s_onset_win self) <= IZR k
    /\ IZR k < ttmax + 2 * Rmax (snd (p_onset_win self))
                                (snd (s_onset_win self)) + 1.
Proof.
  exists (- Int_part (- (ttmax + 2 * Rmax (snd (p_onset_win self))
                                        (snd (s_onset_win self)))))%Z.
  split; [reflexivity |].
  pose proof (np_ceil_bounds (ttmax + 2 * Rmax (snd (p_onset_win self))
                                               (snd (s_onset_win self))))
    as H.
  unfold np_ceil in H.
  pose proof (Rmax_l (snd (p_onset_win self)) (snd (s_onset_win self))).
  pose proof (Rmax_r (snd (p_onset_win self)) (snd (s_onset_win self))).
  repeat split; lra.
Qed.

(** X12.  The post-pad is not recomputed: once assigned, it keeps its
    value when the filters, the windows or the mode are changed, and when
    [pre_pad] is assigned, while [pre_pad] always follows the windows of
    the moment. *)
Theorem post_pad_is_cached (self : ClassicSTALTAOnset) (ttmax value : R)
  (p_bp s_bp : R * R * Z) (p_win s_win : R * R) (centred : bool) :
  post_pad (configure (post_pad_setter self ttmax) p_bp s_bp p_win s_win
                      centred)
  = Ok (np_ceil (ttmax + 2 * Rmax (snd (p_onset_win self))
                                  (snd (s_onset_win self))))
  /\ post_pad (pre_pad_setter (post_pad_setter self ttmax) value)
     = post_pad (post_pad_setter self ttmax)
  /\ pre_pad (configure (post_pad_setter self ttmax) p_bp s_bp p_win s_win
                        centred)
     = Rmax (snd p_win) (snd s_win) + 3 * Rmax (fst p_win) (fst s_win).
Proof. repeat split. Qed.

(** ** [p_onset] and [s_onset] as a whole *)

Section WholeMethods.
Context {L : SignalLib}.

(** X13.  In centred mode, with windows and a sampling rate that are not
    negative, the STA/LTA stage of [p_onset] cannot fail on an array of
    floats: whenever the vertical trace is assigned and [filter] returns,
    [p_onset] returns an array of the shape of the trace, none of whose
    finite values is negative, and caches the filtered trace. *)
Theorem p_onset_centred_returns (self : ClassicSTALTAOnset)
  (z fz : list (list R)) :
  onset_centred self = true ->
  0 <= fst (p_onset_win self) * IZR (sampling_rate self) ->
  0 <= snd (p_onset_win self) * IZR (sampling_rate self) ->
  sigz self = Some z ->
  filter z (sampling_rate self) (fst (fst (p_bp_filter self)))
         (snd (fst (p_bp_filter self))) (snd (p_bp_filter self)) = Ok fz ->
  exists out,
    p_onset self = (Ok out, set_filt_sigz self fz)
    /\ same_shape out z
    /\ forall orow v, In orow out -> In (Some v) orow -> 0 <= v.
Proof.
  intros Hc Hst Hlt Hz Hf.
  pose proof (window_samples_positive _ _ Hst) as Hs1.
  pose proof (window_samples_positive _ _ Hlt) as Hl1.
  rewrite (p_onset_returns self z fz Hz Hf), Hc.
  destruct (centred_onset_members fz _ _ Hs1 Hl1) as (out & E & H).
  exists out. rewrite E. split; [reflexivity |]. split.
  - apply (same_shape_trans out fz z);
      [apply (onset_shape _ _ _ _ _ E) | apply (filter_shape _ _ _ _ _ _ Hf)].
  - intros orow v Ho Hv.
    destruct (H orow (Some v) Ho Hv) as (v' & Ev & Hv').
    injection Ev as ->. exact Hv'.
Qed.
End WholeMethods.

Lemma p_onset_centred_returns_witness :
  exists out,
    p_onset (L := reference_lib) short_window_instance
    = (Ok out, set_filt_sigz short_window_instance [[1; 1; -2; -1]])
    /\ same_shape out [[0; 1; -1; 0]].
Proof.
  destruct (p_onset_centred_returns (L := reference_lib)
              short_window_instance [[0; 1; -1; 0]] [[1; 1; -2; -1]])
    as (out & E & Hs & _).
  - reflexivity.
  - simpl. lra.
  - simpl. lra.
  - reflexivity.
  - exact reference_filter_0110.
  - exists out. split; [exact E | exact Hs].
Defined.

Section Repeatable.
Context {L : SignalLib}.

Lemma p_onset_state (self : ClassicSTALTAOnset) :
  snd (p_onset self) = self
  \/ exists fz, snd (p_onset self) = set_filt_sigz self fz.
Proof.
  unfold p_onset.
  destruct (p_onset_win self) as [st lt].
  destruct (p_bp_filter self) as [[lc hc] ord_].
  destruct (sigz self) as [z |]; [| left; reflexivity].
  destruct (filter z (sampling_rate self) lc hc ord_) as [fz | e];
    [right; exists fz; reflexivity | left; reflexivity].
Qed.

Lemma s_onset_state (self : ClassicSTALTAOnset) :
  snd (s_onset self) = self
  \/ (exists fe, snd (s_onset self) = set_filt_sige self fe)
  \/ exists fe fn,
       snd (s_onset self) = set_filt_sign (set_filt_sige self fe) fn.
Proof.
  unfold s_onset.
  destruct (s_onset_win self) as [st lt].
  destruct (s_bp_filter self) as [[lc hc] ord_].
  destruct (sige self) as [e |]; [| left; reflexivity].
  destruct (filter e (sampling_rate self) lc hc ord_) as [fe | ex];
    [| left; reflexivity].
  change (sign (set_filt_sige self fe)) with (sign self).
  change (sampling_rate (set_filt_sige self fe)) with (sampling_rate self).
  destruct (sign self) as [n |]; [| right; left; exists fe; reflexivity].
  destruct (filter n (sampling_rate self) lc hc ord_) as [fn | ex];
    [right; right; exists fe, fn; reflexivity
    | right; left; exists fe; reflexivity].
Qed.

(** X14.  [p_onset] and [s_onset] change nothing on the instance but the
    cached filtered traces, which they do not read: the outcome of either
    method, a result or an exception, is the same when the method is
    called again, and does not depend on whether the other one was called
    before; the two pads are left as they are. *)
Theorem onset_methods_repeatable (self : ClassicSTALTAOnset) :
  fst (p_onset (snd (p_onset self))) = fst (p_onset self)
  /\ fst (s_onset (snd (s_onset self))) = fst (s_onset self)
  /\ fst (s_onset (snd (p_onset self))) = fst (s_onset self)
  /\ fst (p_onset (snd (s_onset self))) = fst (p_onset self)
  /\ pre_pad (snd (p_onset self)) = pre_pad self
  /\ pre_pad (snd (s_onset self)) = pre_pad self
  /\ post_pad (snd (p_onset self)) = post_pad self
  /\ post_pad (snd (s_onset self)) = post_pad self.
Proof.
  rewrite !p_onset_result, !s_onset_result.
  destruct (p_onset_state self) as [-> | (fz & ->)];
    destruct (s_onset_state self) as [-> | [(fe & ->) | (fe & fn & ->)]];
    repeat split.
Qed.
End Repeatable.

(** ** The combination of the horizontal components, continued *)

Lemma broadcast_mismatch {A B C : Type} (f : A -> B -> C) (l : list A)
  (m : list B) :
  length l <> length m -> length l <> 1%nat -> length m <> 1%nat ->
  broadcast f l m = Raise ValueError.
Proof.
  intros H Hl Hm. unfold broadcast.
  destruct (Nat.eqb_spec (length l) (length m)); [contradiction |].
  destruct l as [| x [| x' l]]; destruct m as [| y [| y' m]];
    simpl in *; try reflexivity; contradiction.
Qed.

Lemma rms_combine_members (e n out : list (list float)) (orow : list float)
  (v : R) :
  rms_combine e n = Ok out -> In orow out -> In (Some v) orow -> 0 <= v.
Proof.
  unfold rms_combine. intros E Ho Hv.
  apply bind_Ok in E. destruct E as (rows & _ & E).
  apply bind_Ok in E. destruct E as (sum & _ & E).
  injection E as <-.
  apply in_map_iff in Ho. destruct Ho as (srow & <- & _).
  apply in_map_iff in Hv. destruct Hv as (y & Hy & _).
  destruct y as [r |]; [| discriminate]. simpl in Hy.
  destruct (Rlt_dec (r / 2) 0); [discriminate |].
  injection Hy as <-. apply sqrt_pos.
Qed.

Lemma rms_combine_channels_mismatch (e n : list (list float)) :
  length e <> length n -> length e <> 1%nat -> length n <> 1%nat ->
  rms_combine e n = Raise ValueError.
Proof.
  intros H He Hn. unfold rms_combine.
  rewrite broadcast_mismatch by (rewrite ?length_map; assumption).
  reflexivity.
Qed.

Lemma rms_combine_samples_mismatch (re rn : list float)
  (e n : list (list float)) :
  length e = length n ->
  length re <> length rn -> length re <> 1%nat -> length rn <> 1%nat ->
  rms_combine (re :: e) (rn :: n) = Raise ValueError.
Proof.
  intros H Hr Hre Hrn. unfold rms_combine.
  rewrite broadcast_same_length by (simpl; rewrite !length_map; lia).
  cbn [bind map combine fst snd for_each].
  rewrite broadcast_mismatch by (rewrite ?length_map; assumption).
  reflexivity.
Qed.

Section Components.
Context {L : SignalLib}.

Lemma component_shapes (self : ClassicSTALTAOnset) (bp : R * R * Z)
  (win : R * R) (raw fsig : list (list R)) (o : list (list float)) :
  onset_of_component self bp win raw = Ok (fsig, o) -> same_shape o raw.
Proof.
  intros E. apply onset_of_component_inv in E. destruct E as [Ef Eo].
  apply (same_shape_trans o fsig raw);
    [apply (onset_shape _ _ _ _ _ Eo) | apply (filter_shape _ _ _ _ _ _ Ef)].
Qed.

Lemma s_onset_combines (self : ClassicSTALTAOnset)
  (raw_e raw_n fe fn : list (list R)) (oe on : list (list float)) :
  sige self = Some raw_e ->
  sign self = Some raw_n ->
  onset_of_component self (s_bp_filter self) (s_onset_win self) raw_e
  = Ok (fe, oe) ->
  onset_of_component self (s_bp_filter self) (s_onset_win self) raw_n
  = Ok (fn, on) ->
  fst (s_onset self) = rms_combine oe on.
Proof.
  intros He Hn Ee En.
  apply onset_of_component_inv in Ee. destruct Ee as [Efe Eoe].
  apply onset_of_component_inv in En. destruct En as [Efn Eon].
  rewrite s_onset_result, He, Hn. cbn [attribute bind].
  rewrite Efe. cbn [bind]. rewrite Efn. cbn [bind].
  rewrite Eoe, Eon. reflexivity.
Qed.

(** X15.  No finite value of [s_onset] is negative, in either mode: each
    is a square root. *)
Theorem s_onset_nonnegative (self : ClassicSTALTAOnset)
  (out : list (list float)) (orow : list float) (v : R) :
  fst (s_onset self) = Ok out ->
  In orow out -> In (Some v) orow -> 0 <= v.
Proof.
  rewrite s_onset_result. intros E.
  do 6 (apply bind_Ok in E; destruct E as (? & _ & E)).
  apply (rms_combine_members _ _ _ _ _ E).
Qed.

(** X16.  [s_onset] does not compare the shapes of the two horizontal
    traces; numpy does when it adds the squares.  When the onsets of both
    components are computed, and the traces differ in the number of
    channels, or have as many channels and differ in the number of samples
    of the first, neither number being 1, [s_onset] raises ValueError. *)
Theorem s_onset_shape_mismatch (self : ClassicSTALTAOnset)
  (raw_e raw_n fe fn : list (list R)) (oe on : list (list float)) :
  sige self = Some raw_e ->
  sign self = Some raw_n ->
  onset_of_component self (s_bp_filter self) (s_onset_win self) raw_e
  = Ok (fe, oe) ->
  onset_of_component self (s_bp_filter self) (s_onset_win self) raw_n
  = Ok (fn, on) ->
  (length raw_e <> length raw_n
   /\ length raw_e <> 1%nat /\ length raw_n <> 1%nat)
  \/ (length raw_e = length raw_n
      /\ exists re rn,
           hd_error raw_e = Some re /\ hd_error raw_n = Some rn
           /\ length re <> length rn
           /\ length re <> 1%nat /\ length rn <> 1%nat) ->
  fst (s_onset self) = Raise ValueError.
Proof.
  intros He Hn Ee En Hshape.
  rewrite (s_onset_combines self _ _ _ _ _ _ He Hn Ee En).
  pose proof (component_shapes _ _ _ _ _ _ Ee) as Se.
  pose proof (component_shapes _ _ _ _ _ _ En) as Sn.
  pose proof (Forall2_length Se) as Le. pose proof (Forall2_length Sn) as Ln.
  destruct Hshape as [(H & H1 & H2) | (H & re & rn & Hre & Hrn & Hr & Hr1 & Hr2)].
  - apply rms_combine_channels_mismatch; congruence.
  - destruct raw_e as [| re' raw_e]; [discriminate |].
    destruct raw_n as [| rn' raw_n]; [discriminate |].
    injection Hre as ->. injection Hrn as ->.
    inversion Se as [| roe ? oe' ? Hle Se']; subst.
    inversion Sn as [| ron ? on' ? Hln Sn']; subst.
    apply rms_combine_samples_mismatch.
    + pose proof (Forall2_length Se'). pose proof (Forall2_length Sn').
      simpl in H. lia.
    + congruence.
    + congruence.
    + congruence.
Qed.
End Components.

Lemma for_each_repeat {A B : Type} (f : A -> result B) (x : A) (y : B)
  (k : nat) :
  f x = Ok y -> for_each f (repeat x k) = Ok (repeat y k).
Proof.
  intros E. induction k as [| k IH]; [reflexivity |].
  simpl. rewrite E. simpl. rewrite IH. reflexivity.
Qed.

(** [k] silent channels of three samples through the reference routines,
    with the default S filter and windows at 50 Hz. *)
Lemma reference_component_silence (self : ClassicSTALTAOnset) (k : nat) :
  sampling_rate self = 50%Z ->
  s_bp_filter self = (2, 12, 2%Z) ->
  onset_of_component (L := reference_lib) self (s_bp_filter self)
    (s_onset_win self) (repeat [0; 0; 0] k)
  = Ok (repeat [0; 0; 0] k, repeat [Some 0; Some 0; Some 0] k).
Proof.
  intros Hr Hb. unfold onset_of_component. rewrite Hr, Hb. cbn [fst snd].
  rewrite filter_hands_over. cbn [Z.eqb butter reference_lib].
  rewrite two_tap_design_in_range by lra.
  rewrite (for_each_repeat _ [0; 0; 0] [0; 0; 0])
    by exact (reference_filter_row_silent 3 ltac:(lia)).
  cbn [bind]. rewrite onset_rows.
  rewrite (for_each_repeat _ [0; 0; 0] [Some 0; Some 0; Some 0])
    by (apply (onset_row_bypassed (L := reference_lib)); exact (np_sum_zeros 3)).
  reflexivity.
Qed.

Lemma s_onset_nonnegative_witness :
  exists out,
    fst (s_onset (L := reference_lib) silent_instance) = Ok out
    /\ forall orow v, In orow out -> In (Some v) orow -> 0 <= v.
Proof.
  pose proof (reference_component_silence silent_instance 1 eq_refl eq_refl)
    as E.
  pose proof (s_onset_combines (L := reference_lib) silent_instance
                _ _ _ _ _ _ eq_refl eq_refl E E) as Es.
  rewrite rms_combine_same_shape in Es by (repeat constructor).
  eexists. split; [exact Es |].
  intros orow v.
  apply (s_onset_nonnegative (L := reference_lib) silent_instance _ _ _ Es).
Defined.

(** Two silent east channels against three silent north channels. *)
Lemma s_onset_shape_mismatch_witness :
  fst (s_onset (L := reference_lib)
         (set_signals (init (B := no_base_attributes) 50) None (Some (repeat [0; 0; 0] 2))
                      (Some (repeat [0; 0; 0] 3))))
  = Raise ValueError.
Proof.
  apply (s_onset_shape_mismatch (L := reference_lib)
           (set_signals (init (B := no_base_attributes) 50) None (Some (repeat [0; 0; 0] 2))
                        (Some (repeat [0; 0; 0] 3)))
           (repeat [0; 0; 0] 2) (repeat [0; 0; 0] 3)
           (repeat [0; 0; 0] 2) (repeat [0; 0; 0] 3)
           (repeat [Some 0; Some 0; Some 0] 2)
           (repeat [Some 0; Some 0; Some 0] 3)).
  - reflexivity.
  - reflexivity.
  - apply (reference_component_silence _ 2); reflexivity.
  - apply (reference_component_silence _ 3); reflexivity.
  - left. simpl. repeat split; lia.
Defined.

Lemma rms_combine_single (e : list (list float)) (rn : list float) :
  Forall (fun re => length re = length rn) e ->
  rms_combine e [rn]
  = Ok (map (fun re => map (fun q : float * float => rms (fst q) (snd q))
                           (combine re rn)) e).
Proof.
  intros H. unfold rms_combine.
  assert (Hrows : for_each (fun r : result (list float) => r)
                    (map (fun x => broadcast fadd x (map fsq rn))
                         (map (map fsq) e))
                  = Ok (map (fun re =>
                               map (fun q : float * float =>
                                      fadd (fst q) (snd q))
                                   (combine (map fsq re) (map fsq rn))) e)).
  { induction H as [| re e Hr _ IH]; [reflexivity |].
    simpl. rewrite broadcast_same_length by (rewrite !length_map; exact Hr).
    cbn [bind]. rewrite IH. reflexivity. }
  assert (Hb : broadcast (broadcast fadd) (map (map fsq) e) (map (map fsq) [rn])
               = Ok (map (fun x => broadcast fadd x (map fsq rn))
                         (map (map fsq) e))).
  { destruct e as [| re [| re' e]]; reflexivity. }
  rewrite Hb. cbn [bind]. rewrite Hrows. cbn [bind]. f_equal.
  rewrite map_map. clear Hb Hrows.
  induction H as [| re e Hr _ IH]; [reflexivity |].
  simpl. rewrite IH. f_equal. apply (rms_rows re rn Hr).
Qed.

Section SingleChannel.
Context {L : SignalLib}.

(** X17.  A horizontal trace with a single channel is not refused when
    the other has several: when the north trace has one channel and every
    east channel has as many samples, [s_onset] returns one row for each
    east channel, each combined with the one north channel. *)
Theorem s_onset_broadcasts_single_channel (self : ClassicSTALTAOnset)
  (raw_e fe fn : list (list R)) (rn : list R) (oe on : list (list float)) :
  sige self = Some raw_e ->
  sign self = Some [rn] ->
  onset_of_component self (s_bp_filter self) (s_onset_win self) raw_e
  = Ok (fe, oe) ->
  onset_of_component self (s_bp_filter self) (s_onset_win self) [rn]
  = Ok (fn, on) ->
  Forall (fun re => length re = length rn) raw_e ->
  exists ron,
    on = [ron]
    /\ fst (s_onset self)
       = Ok (map (fun roe => map (fun q : float * float => rms (fst q) (snd q))
                                 (combine roe ron)) oe)
    /\ length oe = length raw_e.
Proof.
  intros He Hn Ee En Hlen.
  rewrite (s_onset_combines self _ _ _ _ _ _ He Hn Ee En).
  pose proof (component_shapes _ _ _ _ _ _ Ee) as Se.
  pose proof (component_shapes _ _ _ _ _ _ En) as Sn.
  inversion Sn as [| ron ? on' ? Hron Sn']; subst.
  inversion Sn'; subst.
  exists ron. split; [reflexivity |].
  split; [| apply (Forall2_length Se)].
  apply rms_combine_single.
  clear - Se Hlen Hron. induction Se as [| roe re oe raw_e Hr _ IH];
    [constructor |].
  inversion Hlen; subst. constructor; [congruence | apply IH; assumption].
Qed.
End SingleChannel.

(** Two silent east channels against one silent north channel. *)
Lemma s_onset_broadcasts_single_channel_witness :
  exists out,
    fst (s_onset (L := reference_lib)
           (set_signals (init (B := no_base_attributes) 50) None (Some (repeat [0; 0; 0] 2))
                        (Some [[0; 0; 0]])))
    = Ok out
    /\ length out = 2%nat.
Proof.
  destruct (s_onset_broadcasts_single_channel (L := reference_lib)
              (set_signals (init (B := no_base_attributes) 50) None (Some (repeat [0; 0; 0] 2))
                           (Some [[0; 0; 0]]))
              (repeat [0; 0; 0] 2) (repeat [0; 0; 0] 2) [[0; 0; 0]]
              [0; 0; 0]
              (repeat [Some 0; Some 0; Some 0] 2)
              [[Some 0; Some 0; Some 0]])
    as (ron & _ & E & Hl).
  - reflexivity.
  - reflexivity.
  - apply (reference_component_silence _ 2); reflexivity.
  - apply (reference_component_silence _ 1); reflexivity.
  - repeat constructor.
  - eexists. split; [exact E |]. rewrite length_map. exact Hl.
Defined.

(** ** Symmetries *)

Lemma combine_flip {A B C : Type} (f : A -> B -> C) (l : list A) (m : list B) :
  map (fun p : A * B => f (fst p) (snd p)) (combine l m)
  = map (fun p : B * A => f (snd p) (fst p)) (combine m l).
Proof.
  revert m. induction l as [| x l IH]; intros [| y m]; simpl;
    try reflexivity.
  rewrite IH. reflexivity.
Qed.

Lemma broadcast_flip {A B C : Type} (f : A -> B -> C) (l : list A)
  (m : list B) :
  broadcast f l m = broadcast (fun y x => f x y) m l.
Proof.
  unfold broadcast. rewrite (Nat.eqb_sym (length m) (length l)).
  destruct (Nat.eqb_spec (length l) (length m)) as [H | H].
  - rewrite combine_flip. reflexivity.
  - destruct l as [| x [| x' l]]; destruct m as [| y [| y' m]];
      simpl in *; try reflexivity; contradiction.
Qed.

Lemma broadcast_ext {A B C : Type} (f g : A -> B -> C) (l : list A)
  (m : list B) :
  (forall x y, f x y = g x y) -> broadcast f l m = broadcast g l m.
Proof.
  intros H. unfold broadcast.
  destruct (length l =? length m)%nat.
  - f_equal. apply map_ext. intros p. apply H.
  - destruct l as [| x [| x' l]]; destruct m as [| y [| y' m]];
      try reflexivity; f_equal; apply map_ext; intros z; apply H.
Qed.

Lemma fadd_comm (x y : float) : fadd x y = fadd y x.
Proof. destruct x, y; simpl; try reflexivity. f_equal. ring. Qed.

Lemma rms_combine_comm (e n : list (list float)) :
  rms_combine e n = rms_combine n e.
Proof.
  unfold rms_combine. rewrite broadcast_flip.
  rewrite (broadcast_ext _ (broadcast fadd)); [reflexivity |].
  intros x y. rewrite broadcast_flip. apply broadcast_ext.
  intros a b. apply fadd_comm.
Qed.

Section Symmetries.
Context {L : SignalLib}.

(** X18.  The two horizontal components enter [s_onset] symmetrically:
    when the onsets of both are computed, exchanging the east and the north
    trace leaves the result, or the exception of the combination, as it
    is. *)
Theorem s_onset_symmetric (self : ClassicSTALTAOnset)
  (raw_e raw_n fe fn : list (list R)) (oe on : list (list float)) :
  sige self = Some raw_e ->
  sign self = Some raw_n ->
  onset_of_component self (s_bp_filter self) (s_onset_win self) raw_e
  = Ok (fe, oe) ->
  onset_of_component self (s_bp_filter self) (s_onset_win self) raw_n
  = Ok (fn, on) ->
  fst (s_onset (set_signals self (sigz self) (Some raw_n) (Some raw_e)))
  = fst (s_onset self).
Proof.
  intros He Hn Ee En.
  rewrite (s_onset_combines self _ _ _ _ _ _ He Hn Ee En).
  rewrite (s_onset_combines
             (set_signals self (sigz self) (Some raw_n) (Some raw_e))
             raw_n raw_e fn fe on oe eq_refl eq_refl En Ee).
  apply rms_combine_comm.
Qed.

Lemma np_sum_opp (l : list R) : np_sum (map Ropp l) = - np_sum l.
Proof.
  induction l as [| x l IH]; [unfold np_sum; simpl; ring |].
  change (map Ropp (x :: l)) with ([- x] ++ map Ropp l).
  change (x :: l) with ([x] ++ l).
  rewrite !np_sum_app, IH. unfold np_sum. simpl. ring.
Qed.

Lemma squares_opp (a : list R) :
  map (fun x => x ^ 2) (map Ropp a) = map (fun x => x ^ 2) a.
Proof. rewrite map_map. apply map_ext. intros x. ring. Qed.

Lemma sta_lta_centred_opp (a : list R) (nsta nlta : Z) :
  sta_lta_centred (map Ropp a) nsta nlta = sta_lta_centred a nsta nlta.
Proof.
  unfold sta_lta_centred, sta_windows, lta_windows.
  rewrite squares_opp. reflexivity.
Qed.

Lemma onset_row_opp (row : list R) (stw ltw : Z) :
  onset_row (map Ropp row) stw ltw true = onset_row row stw ltw true.
Proof.
  unfold onset_row. rewrite np_sum_opp, length_map, sta_lta_centred_opp.
  destruct (Req_dec_T (- np_sum row) 0) as [H | H];
    destruct (Req_dec_T (np_sum row) 0) as [H' | H'];
    try reflexivity; exfalso; lra.
Qed.

Lemma for_each_map {A B C : Type} (f : B -> result C) (g : A -> B)
  (l : list A) :
  for_each f (map g l) = for_each (fun x => f (g x)) l.
Proof.
  induction l as [| x l IH]; [reflexivity |]. simpl. rewrite IH. reflexivity.
Qed.

Lemma for_each_ext {A B : Type} (f g : A -> result B) (l : list A) :
  (forall x, f x = g x) -> for_each f l = for_each g l.
Proof.
  intros H. induction l as [| x l IH]; [reflexivity |].
  simpl. rewrite H, IH. reflexivity.
Qed.

(** X19.  The centred onset does not see the polarity of a trace: the
    samples enter the ratio squared, and the test for a silent channel
    compares their sum with zero, so that changing the sign of every sample
    gives the same outcome. *)
Theorem centred_onset_ignores_polarity (sig : list (list R)) (stw ltw : Z) :
  onset (map (map Ropp) sig) stw ltw true = onset sig stw ltw true.
Proof.
  rewrite !onset_rows, for_each_map. apply for_each_ext.
  intros row. apply onset_row_opp.
Qed.
End Symmetries.

Lemma s_onset_symmetric_witness :
  fst (s_onset (L := reference_lib)
         (set_signals (init (B := no_base_attributes) 50) None (Some [[0; 0; 0]])
                      (Some (repeat [0; 0; 0] 2))))
  = fst (s_onset (L := reference_lib)
           (set_signals (init (B := no_base_attributes) 50) None (Some (repeat [0; 0; 0] 2))
                        (Some [[0; 0; 0]]))).
Proof.
  apply (s_onset_symmetric (L := reference_lib)
           (set_signals (init (B := no_base_attributes) 50) None (Some (repeat [0; 0; 0] 2))
                        (Some [[0; 0; 0]]))
           (repeat [0; 0; 0] 2) [[0; 0; 0]]
           (repeat [0; 0; 0] 2) [[0; 0; 0]]
           (repeat [Some 0; Some 0; Some 0] 2) [[Some 0; Some 0; Some 0]]).
  - reflexivity.
  - reflexivity.
  - apply (reference_component_silence _ 2); reflexivity.
  - apply (reference_component_silence _ 1); reflexivity.
Defined.

Section CentredValues.
Context {L : SignalLib}.

(** X20.  In centred mode the clip changes nothing: on a channel whose
    samples do not sum to zero, for positive window lengths, wherever the
    value of [sta_lta_centred] is a finite number it is not negative, and
    the onset value there is the natural logarithm of 1 + ratio. *)
Theorem centred_onset_is_log_of_shifted_ratio (row : list R) (stw ltw : Z) :
  (0 < stw)%Z -> (0 < ltw)%Z -> np_sum row <> 0 ->
  exists ratio orow,
    sta_lta_centred row stw ltw = Ok ratio
    /\ onset_row row stw ltw true = Ok orow
    /\ length orow = length row
    /\ forall i r, nth i ratio None = Some r ->
         0 <= r /\ nth i orow None = Some (ln (1 + r)).
Proof.
  intros Hs Hl Hsum.
  destruct (onset_row_centred row stw ltw Hs Hl Hsum)
    as (ratio & E & Hlen & Eo).
  exists ratio, (map onset_value ratio).
  split; [exact E |]. split; [exact Eo |].
  split; [rewrite length_map; exact Hlen |].
  intros i r Hr.
  assert (Hi : (i < length row)%nat).
  { destruct (Nat.lt_ge_cases i (length row)) as [Hi | Hi]; [exact Hi |].
    rewrite nth_overflow in Hr by (rewrite Hlen; exact Hi). discriminate. }
  destruct (centred_ratio_sample row stw ltw ratio i Hs Hl E Hi)
    as (s & Hv & Hpos & _).
  destruct (guarded_ratio_nonneg s (lta_upto row ltw (Z.of_nat i)) Hpos)
    as (r' & Hr' & Hr0).
  rewrite Hv, Hr' in Hr. injection Hr as <-.
  split; [exact Hr0 |].
  rewrite (nth_map_in onset_value ratio i None None)
    by (rewrite Hlen; exact Hi).
  rewrite Hv, Hr', onset_value_finite, Rmax_left by lra. reflexivity.
Qed.
End CentredValues.

Lemma centred_onset_is_log_of_shifted_ratio_witness :
  exists ratio orow,
    sta_lta_centred [3; -4; 5] 1 2 = Ok ratio
    /\ onset_row (L := reference_lib) [3; -4; 5] 1 2 true = Ok orow
    /\ forall r, nth 1 ratio None = Some r ->
         0 <= r /\ nth 1 orow None = Some (ln (1 + r)).
Proof.
  destruct (centred_onset_is_log_of_shifted_ratio (L := reference_lib)
              [3; -4; 5] 1 2) as (ratio & orow & E & Eo & _ & H);
    [lia | lia | unfold np_sum; simpl; lra |].
  exists ratio, orow. split; [exact E |]. split; [exact Eo |]. apply H.
Defined.
